(** * chatbot.ts: webhook request construction and the two session loops

    A shallow embedding of [src/chatbot.ts]: the zod schemas
    [WebhookEventType], [EventFilters] and [CreateWebhookInput], the tool
    function [createWebhook], and the drivers [runChatMode] and
    [runAutonomousMode].  Effects (console, provider call, agent call,
    timers, process exit) are recorded in a trace; exceptions and process
    termination are explicit completions. *)

From Stdlib Require Import String Ascii List Bool Arith Lia.
Import ListNotations.
Open Scope string_scope.
Set Warnings "-register-all".

(** ** JavaScript values *)
Module Js.

(** JSON data: tool arguments as the agent runtime hands them over, and
    the object literal [webhookOptions] given to the provider.  An object
    keeps its properties in insertion order. *)
Inductive json : Type :=
| JNull
| JBool (b : bool)
| JNum (n : nat)
| JStr (s : string)
| JArr (items : list json)
| JObj (props : list (string * json)).

Definition object := list (string * json).

(** [obj[k]]: [None] stands for [undefined]. *)
Fixpoint get (k : string) (o : object) : option json :=
  match o with
  | [] => None
  | (k', v) :: o' => if k' =? k then Some v else get k o'
  end.

(** [obj.k = v]: replaces in place, or appends a new property. *)
Fixpoint set (k : string) (v : json) (o : object) : object :=
  match o with
  | [] => [(k, v)]
  | (k', v') :: o' => if k' =? k then (k', v) :: o' else (k', v') :: set k v o'
  end.

(** [{...target, ...source}]: own properties of [source] copied in order. *)
Definition spread (target source : object) : object :=
  fold_left (fun acc kv => set (fst kv) (snd kv) acc) source target.

Definition keys (o : object) : list string := map fst o.

(** Truthiness of a possibly undefined string: [undefined] and the empty
    string are falsy. *)
Definition truthy (v : option string) : bool :=
  match v with
  | Some s => negb (s =? "")
  | None => false
  end.

(** [v || d] on a possibly undefined string. *)
Definition or_string (v : option string) (d : string) : string :=
  match v with
  | Some s => if s =? "" then d else s
  | None => d
  end.

(** [v || d] on a possibly undefined array: every array is truthy. *)
Definition or_array {A : Type} (v : option (list A)) (d : list A) : list A :=
  match v with
  | Some l => l
  | None => d
  end.

(** Thrown values: an [Error] instance (or subclass, with its [name]);
    any other value that converts to a string, kept through that string;
    or a value whose conversion to a string itself throws a [TypeError]
    (a [Symbol], an object without [toString]), kept through the message
    of that [TypeError]. *)
Inductive exn : Type :=
| ErrorObj (name message : string)
| Thrown (rendered : string)
| Unprintable (complaint : string).

(** [new Error(message)]. *)
Definition Error (message : string) : exn := ErrorObj "Error" message.

(** [new TypeError(message)], raised by a property read on [undefined]. *)
Definition TypeError (message : string) : exn := ErrorObj "TypeError" message.

(** [error instanceof Error]. *)
Definition instanceof_Error (e : exn) : bool :=
  match e with
  | ErrorObj _ _ => true
  | Thrown _ => false
  | Unprintable _ => false
  end.

(** The string conversion used by a template literal: for an [Error],
    [Error.prototype.toString]; it yields the string, or the [TypeError]
    the conversion throws. *)
Definition to_string (e : exn) : exn + string :=
  match e with
  | ErrorObj name message =>
      inr (if name =? "" then message
           else if message =? "" then name
           else name ++ ": " ++ message)
  | Thrown rendered => inr rendered
  | Unprintable complaint => inl (TypeError complaint)
  end.

(** A possibly undefined string inside a template literal. *)
Definition template (v : option string) : string :=
  match v with Some s => s | None => "undefined" end.

Definition is_upper (c : ascii) : bool :=
  let n := nat_of_ascii c in ((65 <=? n) && (n <=? 90))%nat.

Definition lower_char (c : ascii) : ascii :=
  if is_upper c then ascii_of_nat (nat_of_ascii c + 32)%nat else c.

(** [s.toLowerCase()] on the ASCII letters; every other byte is kept. *)
Fixpoint toLowerCase (s : string) : string :=
  match s with
  | EmptyString => EmptyString
  | String c s' => String (lower_char c) (toLowerCase s')
  end.

End Js.

(** ** Effects *)
Module Eff.
Import Js.

(** An argument of [console.error]. *)
Inductive arg : Type :=
| AStr (s : string)
| AExn (e : exn).

Inductive effect : Type :=
| ConsoleLog (line : string)
| ConsoleError (args : list arg)
| WebhookCreate (options : object)
| Question (prompt : string)
| AgentStream (message : string)
| SetTimeout (ms : nat)
| RlClose.

Definition trace := list effect.

(** How a computation ends: with a value, with a thrown exception, by
    [process.exit], suspended on a read that has no line left to deliver,
    or still looping when the iteration budget of the model ran out. *)
Inductive completion (A : Type) : Type :=
| Normal (a : A)
| Throw (e : exn)
| Exit (code : nat)
| AwaitingInput
| StillRunning.
Arguments Normal {A} a.
Arguments Throw {A} e.
Arguments Exit {A} code.
Arguments AwaitingInput {A}.
Arguments StillRunning {A}.

Definition M (A : Type) : Type := trace * completion A.

Definition ret {A} (a : A) : M A := ([], Normal a).
Definition throw {A} (e : exn) : M A := ([], Throw e).
Definition emit (e : effect) : M unit := ([e], Normal tt).
Definition process_exit {A} (code : nat) : M A := ([], Exit code).

Definition bind {A B} (m : M A) (f : A -> M B) : M B :=
  match m with
  | (t, Normal a) => let (t', r) := f a in ((t ++ t')%list, r)
  | (t, Throw e) => (t, Throw e)
  | (t, Exit code) => (t, Exit code)
  | (t, AwaitingInput) => (t, AwaitingInput)
  | (t, StillRunning) => (t, StillRunning)
  end.

(** A step that throws or yields a value. *)
Definition of_result {A} (r : exn + A) : M A :=
  match r with
  | inl e => throw e
  | inr a => ret a
  end.

(** [try { body } catch (error) { handler }]. *)
Definition try_catch {A} (body : M A) (handler : exn -> M A) : M A :=
  match body with
  | (t, Throw e) => let (t', r) := handler e in ((t ++ t')%list, r)
  | other => other
  end.

(** [try { body } finally { cleanup }]: the cleanup runs when the body
    returns or throws, not when the process has already exited. *)
Definition try_finally {A} (body : M A) (cleanup : M unit) : M A :=
  match body with
  | (t, Normal a) => let (t', r) := cleanup in
                     ((t ++ t')%list, match r with
                               | Normal _ => Normal a
                               | Throw e => Throw e
                               | Exit c => Exit c
                               | AwaitingInput => AwaitingInput
                               | StillRunning => StillRunning
                               end)
  | (t, Throw e) => let (t', r) := cleanup in
                    ((t ++ t')%list, match r with
                              | Normal _ => Throw e
                              | Throw e' => Throw e'
                              | Exit c => Exit c
                              | AwaitingInput => AwaitingInput
                              | StillRunning => StillRunning
                              end)
  | other => other
  end.

End Eff.

Declare Scope eff_scope.
Delimit Scope eff_scope with eff.
Notation "x <- m ;; k" := (Eff.bind m (fun x => k))
  (at level 61, m at next level, right associativity) : eff_scope.
Notation "m ;;; k" := (Eff.bind m (fun _ => k))
  (at level 61, right associativity) : eff_scope.

(** ** The zod combinators the schemas use *)
Module Zod.
Import Js.

Inductive segment : Type :=
| Key (k : string)
| Index (i : nat).

Definition path := list segment.

Inductive issue : Type :=
| invalid_type (at_ : path) (expected : string)
| invalid_enum_value (at_ : path)
| invalid_string (at_ : path) (validation : string)
| custom (at_ : path) (message : string).

(** A parse either collects issues (a [ZodError]) or yields the data. *)
Definition result (A : Type) : Type := (list issue + A)%type.

Definition issues_of {A} (r : result A) : list issue :=
  match r with inl i => i | inr _ => [] end.

(** Two fields of one object: both are parsed, their issues are merged. *)
Definition both {A B} (ra : result A) (rb : result B) : result (A * B) :=
  match ra, rb with
  | inr a, inr b => inr (a, b)
  | _, _ => inl (issues_of ra ++ issues_of rb)%list
  end.

Definition map_result {A B} (f : A -> B) (r : result A) : result B :=
  match r with inl i => inl i | inr a => inr (f a) end.

(** A schema reads the value found at a path; [None] is [undefined]. *)
Definition schema (A : Type) : Type := path -> option json -> result A.

(** [z.string()]. *)
Definition string_ : schema string := fun p v =>
  match v with
  | Some (JStr s) => inr s
  | _ => inl [invalid_type p "string"]
  end.

(** The elements of [z.array(z.string())], from index [i] on. *)
Fixpoint string_items (p : path) (i : nat) (items : list json) : result (list string) :=
  match items with
  | [] => inr []
  | x :: rest =>
      map_result (fun sl => fst sl :: snd sl)
                 (both (string_ (p ++ [Index i])%list (Some x))
                       (string_items p (S i) rest))
  end.

(** [z.array(z.string())]. *)
Definition array_string : schema (list string) := fun p v =>
  match v with
  | Some (JArr items) => string_items p 0 items
  | _ => inl [invalid_type p "array"]
  end.

(** [s.optional()]: [undefined] is accepted as it is, anything else
    (including [null]) goes to [s]. *)
Definition optional {A} (s : schema A) : schema (option A) := fun p v =>
  match v with
  | None => inr None
  | Some _ => map_result Some (s p v)
  end.

(** [s.refine(check, { message })]: runs only on data that parsed. *)
Definition refine {A} (s : schema A) (check : A -> bool) (message : string)
  : schema A := fun p v =>
  match s p v with
  | inl i => inl i
  | inr a => if check a then inr a else inl [custom p message]
  end.

(** The property [k] of the object under [p], as a schema sees it. *)
Definition field {A} (s : schema A) (p : path) (o : object) (k : string)
  : result A := s (p ++ [Key k])%list (get k o).

End Zod.

(** ** The webhook tool: schemas and [createWebhook] *)
Module Webhook.
Import Js Eff Zod.
Local Open Scope eff_scope.

Definition nl : string := String (ascii_of_nat 10) EmptyString.

(** The members of [WebhookEventType]. *)
Definition WebhookEventType_options : list string :=
  ["wallet_activity"; "smart_contract_event_activity";
   "erc20_transfer"; "erc721_transfer"].

(** [z.enum([...])]. *)
Definition WebhookEventType : schema string := fun p v =>
  match v with
  | Some (JStr s) =>
      if existsb (String.eqb s) WebhookEventType_options then inr s
      else inl [invalid_enum_value p]
  | _ =>
      inl [invalid_type p
             "'wallet_activity' | 'smart_contract_event_activity' | 'erc20_transfer' | 'erc721_transfer'"]
  end.

(** The data an [EventFilters] parse yields: a property is there exactly
    when its field is [Some]. *)
Record EventFiltersData : Type := {
  addresses : option (list string);
  from_address : option string;
  to_address : option string;
  contract_address : option string
}.

(** Whether a property is there. *)
Definition present {A} (v : option A) : bool :=
  match v with Some _ => true | None => false end.

(** [Object.keys(data)]. *)
Definition Object_keys (data : EventFiltersData) : list string :=
  ((if present (addresses data) then ["addresses"] else []) ++
   (if present (from_address data) then ["from_address"] else []) ++
   (if present (to_address data) then ["to_address"] else []) ++
   (if present (contract_address data) then ["contract_address"] else []))%list.

(** The [z.object({...})] under [EventFilters]; properties outside the
    shape are dropped. *)
Definition EventFilters_shape : schema EventFiltersData := fun p v =>
  match v with
  | Some (JObj o) =>
      map_result
        (fun x => {| addresses := fst x;
                     from_address := fst (snd x);
                     to_address := fst (snd (snd x));
                     contract_address := snd (snd (snd x)) |})
        (both (field (optional array_string) p o "addresses")
        (both (field (optional string_) p o "from_address")
        (both (field (optional string_) p o "to_address")
              (field (optional string_) p o "contract_address"))))
  | _ => inl [invalid_type p "object"]
  end.

(** [EventFilters]: the shape, refined by "at least one filter". *)
Definition EventFilters : schema EventFiltersData :=
  refine EventFilters_shape
         (fun data => (0 <? length (Object_keys data))%nat)
         "At least one filter must be provided".

(** [args.eventTypeFilter]; [addresses] is read defensively by the code
    ([addresses || []]), so it may be [undefined] here. *)
Record EventTypeFilterData : Type := {
  monitored_addresses : option (list string)
}.

(** The argument object of [createWebhook]. *)
Record CreateWebhookArgs : Type := {
  notificationUri : string;
  eventType : string;
  eventTypeFilter : EventTypeFilterData;
  eventFilters : option EventFiltersData
}.

Definition eventTypeFilter_schema : schema EventTypeFilterData := fun p v =>
  match v with
  | Some (JObj o) =>
      map_result (fun a => {| monitored_addresses := Some a |})
                 (field array_string p o "addresses")
  | _ => inl [invalid_type p "object"]
  end.

Section Schema.

(** Whether [new URL(s)] succeeds; decided by the runtime. *)
Variable is_url : string -> bool.

(** [z.string().url()]. *)
Definition string_url : schema string := fun p v =>
  match string_ p v with
  | inl i => inl i
  | inr s => if is_url s then inr s else inl [invalid_string p "url"]
  end.

(** [CreateWebhookInput]. *)
Definition CreateWebhookInput : schema CreateWebhookArgs := fun p v =>
  match v with
  | Some (JObj o) =>
      map_result
        (fun x => {| notificationUri := fst x;
                     eventType := fst (snd x);
                     eventTypeFilter := fst (snd (snd x));
                     eventFilters := snd (snd (snd x)) |})
        (both (field string_url p o "notificationUri")
        (both (field WebhookEventType p o "eventType")
        (both (field eventTypeFilter_schema p o "eventTypeFilter")
              (field (optional EventFilters) p o "eventFilters"))))
  | _ => inl [invalid_type p "object"]
  end.

End Schema.

(** [process.env], as far as this file reads it. *)
Record ProcessEnv : Type := {
  NETWORK_ID : option string
}.

(** [cond ? { [k]: cond } : {}] for a possibly undefined string [cond]. *)
Definition prop_if_truthy (k : string) (cond : option string) : object :=
  match cond with
  | Some s => if s =? "" then [] else [(k, JStr s)]
  | None => []
  end.

(** [eventFilters?.f]. *)
Definition opt_chain {A} (eventFilters : option EventFiltersData)
  (f : EventFiltersData -> option A) : option A :=
  match eventFilters with
  | Some data => f data
  | None => None
  end.

(** The object literal of the transfer branch, three conditional spreads. *)
Definition transfer_filter (eventFilters : option EventFiltersData) : object :=
  spread
    (spread
       (spread []
          (prop_if_truthy "contract_address" (opt_chain eventFilters contract_address)))
       (prop_if_truthy "from_address" (opt_chain eventFilters from_address)))
    (prop_if_truthy "to_address" (opt_chain eventFilters to_address)).

Definition strings (l : list string) : json := JArr (map JStr l).

(** [webhookOptions] as it stands after the [switch]: the three fixed
    properties, then the property the event type selects. *)
Definition webhookOptions (networkId : string) (args : CreateWebhookArgs)
  : M object :=
  let webhookOptions : object :=
    [("networkId", JStr networkId);
     ("notificationUri", JStr (notificationUri args));
     ("eventType", JStr (eventType args))] in
  if eventType args =? "wallet_activity" then
    ret (set "eventTypeFilter"
             (JObj [("addresses",
                     strings (or_array (monitored_addresses (eventTypeFilter args)) []));
                    ("wallet_id", JStr "")])
             webhookOptions)
  else if eventType args =? "smart_contract_event_activity" then
    ret (set "eventTypeFilter"
             (JObj [("contract_addresses",
                     strings (or_array (monitored_addresses (eventTypeFilter args)) []))])
             webhookOptions)
  else if (eventType args =? "erc20_transfer")
          || (eventType args =? "erc721_transfer") then
    ret (set "eventFilters"
             (JArr [JObj (transfer_filter (eventFilters args))])
             webhookOptions)
  else
    throw (Error ("Unsupported event type: " ++ eventType args)).

(** [if (!networkId) throw ...], yielding the string once it is known to
    be there. *)
Definition configured_networkId (env : ProcessEnv) : M string :=
  match NETWORK_ID env with
  | Some networkId =>
      if networkId =? "" then
        throw (Error "Network ID is not configured in environment variables")
      else ret networkId
  | None =>
      throw (Error "Network ID is not configured in environment variables")
  end.

(** [networkId: process.env.NETWORK_ID || "base-sepolia"], the value
    [initializeAgent] puts in the agentkit configuration. *)
Definition initializeAgent_networkId (env : ProcessEnv) : string :=
  or_string (NETWORK_ID env) "base-sepolia".

Section Submitter.

(** [Webhook.create]: the provider either throws or returns a webhook,
    seen here through [webhook?.toString()] ([None] when the returned
    value is [undefined]). *)
Variable Webhook_create : object -> exn + option string.

Definition await_Webhook_create (options : object) : M (option string) :=
  emit (WebhookCreate options);;;
  match Webhook_create options with
  | inl e => throw e
  | inr webhook => ret webhook
  end.

(** [createWebhook(wallet, args)]; the wallet is not read by the body. *)
Definition createWebhook (env : ProcessEnv) (args : CreateWebhookArgs)
  : M string :=
  try_catch
    (networkId <- configured_networkId env;;
     options <- webhookOptions networkId args;;
     webhook <- await_Webhook_create options;;
     ret ("The webhook was successfully created: " ++ template webhook
          ++ nl ++ nl)%string)
    (fun error =>
       emit (ConsoleError [AStr "Failed to create webhook:"; AExn error]);;;
       rendered <- of_result (to_string error);;
       ret ("Error: " ++ rendered)).

(** The tool [create_webhook]: the agent runtime parses the raw arguments
    with [argsSchema] and calls [func] only on arguments that parsed. *)
Definition create_webhook_tool (is_url : string -> bool) (env : ProcessEnv)
  (raw : json) : list issue + M string :=
  match CreateWebhookInput is_url [] (Some raw) with
  | inl issues => inl issues
  | inr args => inr (createWebhook env args)
  end.

End Submitter.

(** *** Observations *)

(** The requests handed to the provider, in order. *)
Fixpoint submitted (t : trace) : list object :=
  match t with
  | [] => []
  | WebhookCreate options :: t' => options :: submitted t'
  | _ :: t' => submitted t'
  end.

(** The property names the [EventFilters] shape knows. *)
Definition recognized_fields : list string :=
  ["addresses"; "from_address"; "to_address"; "contract_address"].

(** A raw filter object populates a field when it has the property with a
    value other than [null]. *)
Definition populated (raw : object) (k : string) : bool :=
  match get k raw with
  | None | Some JNull => false
  | Some _ => true
  end.

(** A transfer field of the parsed filter, by name. *)
Definition transfer_field (eventFilters : option EventFiltersData)
  (k : string) : option string :=
  if "contract_address" =? k then opt_chain eventFilters contract_address
  else if "from_address" =? k then opt_chain eventFilters from_address
  else if "to_address" =? k then opt_chain eventFilters to_address
  else None.

(** How the [catch] block of [createWebhook] completes on a caught
    error: with the error string, or with the [TypeError] of the string
    conversion. *)
Definition caught (e : exn) : completion string :=
  match to_string e with
  | inr rendered => Normal ("Error: " ++ rendered)
  | inl failure => Throw failure
  end.

(** The string a successful call returns. *)
Definition success_message (webhook : option string) : string :=
  "The webhook was successfully created: " ++ template webhook ++ nl ++ nl.

End Webhook.

(** ** The session drivers *)
Module Session.
Import Js Eff.
Local Open Scope eff_scope.

(** One item of the agent's response stream: an object that may carry an
    [agent] property, a [tools] property, both or neither; each holds the
    [content] of its [messages], in order. *)
Record chunk : Type := {
  agent : option (list string);
  tools : option (list string)
}.

(** The async iterable returned by [agent.stream]: it yields chunks and
    then ends, or throws on the way. *)
Inductive stream : Type :=
| EndOfStream
| Yield (c : chunk) (rest : stream)
| Reject (e : exn).

Definition separator : string := "-------------------".

(** [messages[0].content]; reading [content] of [undefined] throws. *)
Definition first_content (messages : list string) : M string :=
  match messages with
  | content :: _ => ret content
  | [] => throw (TypeError "Cannot read properties of undefined (reading 'content')")
  end.

(** The body of the [for await] loop, the same in both modes. *)
Definition loop_body (c : chunk) : M unit :=
  match agent c with
  | Some messages =>
      content <- first_content messages;; emit (ConsoleLog content)
  | None =>
      match tools c with
      | Some messages =>
          content <- first_content messages;; emit (ConsoleLog content)
      | None => ret tt
      end
  end;;;
  emit (ConsoleLog separator).

(** [for await (const chunk of stream) { ... }]. *)
Fixpoint for_await (s : stream) : M unit :=
  match s with
  | EndOfStream => ret tt
  | Yield c rest => loop_body c;;; for_await rest
  | Reject e => throw e
  end.

(** [error.message] of an [Error]. *)
Definition message_of (e : exn) : string :=
  match e with
  | ErrorObj _ message => message
  | Thrown _ => ""
  | Unprintable _ => ""
  end.

(** The [catch] block both drivers share. *)
Definition catch_and_exit (error : exn) : M unit :=
  (if instanceof_Error error
   then emit (ConsoleError [AStr "Error:"; AStr (message_of error)])
   else ret tt);;;
  process_exit 1.

Definition thought : string :=
  "Be creative and do something interesting on the blockchain. " ++
  "Choose an action or set of actions and execute it that highlights your abilities.".

Definition chat_prompt : string := Webhook.nl ++ "Prompt: ".

(** The interval [main] runs the autonomous mode with. *)
Definition default_interval : nat := 10.

Section Drivers.

(** The agent runtime: given the messages already sent on the thread and
    a new one, [agent.stream] throws or returns a stream. *)
Variable agent_stream : list string -> string -> exn + stream.

(** [await agent.stream({ messages: [new HumanMessage(text)] }, config)]. *)
Definition await_agent_stream (history : list string) (text : string)
  : M stream :=
  emit (AgentStream text);;;
  match agent_stream history text with
  | inl e => throw e
  | inr s => ret s
  end.

(** One agent turn: the call and the loop over its stream, the same
    statements in both drivers. *)
Definition turn (history : list string) (text : string) : M unit :=
  s <- await_agent_stream history text;;
  for_await s.

(** The [while (true)] of [runChatMode], over the lines standard input
    still has to deliver. *)
Fixpoint chat_loop (history inputs : list string) : M unit :=
  match inputs with
  | [] => emit (Question chat_prompt);;; ([], AwaitingInput)
  | userInput :: rest =>
      emit (Question chat_prompt);;;
      if toLowerCase userInput =? "exit" then ret tt
      else
        turn history userInput;;;
        chat_loop (history ++ [userInput])%list rest
  end.

(** [runChatMode(agent, config)]. *)
Definition runChatMode (inputs : list string) : M unit :=
  emit (ConsoleLog "Starting chat mode... Type 'exit' to end.");;;
  try_finally
    (try_catch (chat_loop [] inputs) catch_and_exit)
    (emit RlClose).

(** The [while (true)] of [runAutonomousMode], for at most [fuel]
    iterations. *)
Fixpoint auto_loop (fuel interval : nat) (history : list string) : M unit :=
  match fuel with
  | 0 => ([], StillRunning)
  | S fuel' =>
      try_catch
        (turn history thought;;;
         emit (SetTimeout (interval * 1000)))
        catch_and_exit;;;
      auto_loop fuel' interval (history ++ [thought])%list
  end.

(** [runAutonomousMode(agent, config, interval)]. *)
Definition runAutonomousMode (fuel interval : nat) : M unit :=
  emit (ConsoleLog "Starting autonomous mode...");;;
  auto_loop fuel interval [].

End Drivers.

(** *** Observations on traces *)

(** The messages handed to the agent runtime, in order. *)
Fixpoint sent (t : trace) : list string :=
  match t with
  | [] => []
  | AgentStream text :: t' => text :: sent t'
  | _ :: t' => sent t'
  end.

(** The lines written by [console.log], in order. *)
Fixpoint printed (t : trace) : list string :=
  match t with
  | [] => []
  | ConsoleLog line :: t' => line :: printed t'
  | _ :: t' => printed t'
  end.

(** How many separator lines a trace prints. *)
Definition separators (t : trace) : nat :=
  count_occ string_dec (printed t) separator.

(** The chunks a stream yields before it ends or throws. *)
Fixpoint chunks (s : stream) : list chunk :=
  match s with
  | EndOfStream => []
  | Yield c rest => c :: chunks rest
  | Reject _ => []
  end.

(** A stream that yields the given chunks and ends. *)
Fixpoint stream_of (cs : list chunk) : stream :=
  match cs with
  | [] => EndOfStream
  | c :: cs' => Yield c (stream_of cs')
  end.

(** The line a chunk prints before its separator, if any. *)
Definition content_of (c : chunk) : list string :=
  match agent c with
  | Some messages => firstn 1 messages
  | None =>
      match tools c with
      | Some messages => firstn 1 messages
      | None => []
      end
  end.

(** What a drained stream prints: per chunk, its content line and then a
    separator line. *)
Definition lines_of (s : stream) : list string :=
  flat_map (fun c => content_of c ++ [separator])%list (chunks s).

(** The case variants of the word the chat loop stops on. *)
Definition is_exit_word (s : string) : bool :=
  match s with
  | String a (String b (String c (String d EmptyString))) =>
      ((a =? "e") || (a =? "E"))%char && ((b =? "x") || (b =? "X"))%char &&
      ((c =? "i") || (c =? "I"))%char && ((d =? "t") || (d =? "T"))%char
  | _ => false
  end.

Section Runs.

Variable agent_stream : list string -> string -> exn + stream.

(** Every line of [lines] is a non-exit line whose turn, taken after
    [history] and the lines before it, completes without an error. *)
Fixpoint turns_ok (history lines : list string) : Prop :=
  match lines with
  | [] => True
  | l :: lines' =>
      is_exit_word l = false /\
      snd (turn agent_stream history l) = Normal tt /\
      turns_ok (history ++ [l])%list lines'
  end.

(** The streams the agent hands back for the lines of a run, in order,
    up to the first call that throws. *)
Fixpoint streams_of (history lines : list string) : list stream :=
  match lines with
  | [] => []
  | l :: lines' =>
      match agent_stream history l with
      | inr s => s :: streams_of (history ++ [l])%list lines'
      | inl _ => []
      end
  end.

End Runs.

(** What the chunks [cs] print when they are consumed: per chunk, its
    content line and then a separator line. *)
Definition lines_of_chunks (cs : list chunk) : list string :=
  flat_map (fun c => content_of c ++ [separator])%list cs.

End Session.

(** ** Start-up: environment check, agent initialisation, mode choice *)
Module Startup.
Import Js Eff Webhook Session.
Local Open Scope eff_scope.

(** [process.env] as a whole: [env name] is [process.env[name]]. *)
Definition Environment : Type := string -> option string.

(** The part of the environment [createWebhook] and [initializeAgent] read. *)
Definition process_env (env : Environment) : ProcessEnv :=
  {| NETWORK_ID := env "NETWORK_ID" |}.

Definition requiredVars : list string :=
  ["CDP_API_KEY_NAME"; "CDP_API_KEY_PRIVATE_KEY"].

(** [l.forEach(f)]. *)
Fixpoint forEach {A} (f : A -> M unit) (l : list A) : M unit :=
  match l with
  | [] => ret tt
  | x :: l' => f x;;; forEach f l'
  end.

(** [missingVars] after the first [forEach]: the required names whose
    value is falsy, in the order of [requiredVars]. *)
Definition missingVars (env : Environment) : list string :=
  filter (fun varName => negb (truthy (env varName))) requiredVars.

(** [validateEnvironment()].  [console.warn] writes where [console.error]
    does (in Node it is the same function), so it is recorded alike. *)
Definition validateEnvironment (env : Environment) : M unit :=
  (if (0 <? length (missingVars env))%nat then
     emit (ConsoleError [AStr "Error: Required environment variables are not set"]);;;
     forEach (fun varName =>
                emit (ConsoleError
                        [AStr (varName ++ "=your_" ++ toLowerCase varName ++ "_here")]))
             (missingVars env);;;
     process_exit 1
   else ret tt);;;
  if negb (truthy (env "NETWORK_ID")) then
    emit (ConsoleError
            [AStr "Warning: NETWORK_ID not set, defaulting to base-sepolia testnet"])
  else ret tt.

(** *** [String.prototype.trim] on UTF-8 text *)

(** TAB, LF, VT, FF, CR and SPACE. *)
Definition is_ascii_space (c : ascii) : bool :=
  let n := nat_of_ascii c in
  (((9 <=? n) && (n <=? 13)) || (n =? 32))%nat.

(** U+00A0 as two bytes. *)
Definition is_space2 (a b : ascii) : bool :=
  ((nat_of_ascii a =? 194) && (nat_of_ascii b =? 160))%nat.

(** U+1680, U+2000..U+200A, U+2028, U+2029, U+202F, U+205F, U+3000 and
    U+FEFF as three bytes. *)
Definition is_space3 (a b c : ascii) : bool :=
  let x := nat_of_ascii a in
  let y := nat_of_ascii b in
  let z := nat_of_ascii c in
  (((x =? 225) && (y =? 154) && (z =? 128)) ||
   ((x =? 226) && (y =? 128) &&
    (((128 <=? z) && (z <=? 138)) || (z =? 168) || (z =? 169) || (z =? 175))) ||
   ((x =? 226) && (y =? 129) && (z =? 159)) ||
   ((x =? 227) && (y =? 128) && (z =? 128)) ||
   ((x =? 239) && (y =? 187) && (z =? 191)))%nat.

(** [s.trimStart()]. *)
Fixpoint trimStart (s : string) : string :=
  match s with
  | EmptyString => EmptyString
  | String a s1 =>
      if is_ascii_space a then trimStart s1
      else
        match s1 with
        | String b s2 =>
            if is_space2 a b then trimStart s2
            else
              match s2 with
              | String c s3 => if is_space3 a b c then trimStart s3 else s
              | EmptyString => s
              end
        | EmptyString => s
        end
  end.

(** [s.trimEnd()]: a suffix made of white space only is dropped. *)
Fixpoint trimEnd (s : string) : string :=
  match s with
  | EmptyString => EmptyString
  | String a s1 =>
      if trimStart s =? "" then EmptyString else String a (trimEnd s1)
  end.

(** [s.trim()]. *)
Definition trim (s : string) : string := trimEnd (trimStart s).

(** *** [chooseMode] *)

(** The result type ["chat" | "auto"]. *)
Inductive mode : Type :=
| Chat
| Auto.

Definition mode_prompt : string :=
  nl ++ "Choose a mode (enter number or name): ".

Definition invalid_choice : string := "Invalid choice. Please try again.".

(** The answer as [chooseMode] compares it. *)
Definition normalize (line : string) : string := trim (toLowerCase line).

(** [chooseMode()], over the lines standard input has to deliver; the
    lines it did not read are returned with the mode, for the reader that
    is opened next. *)
Fixpoint chooseMode (inputs : list string) : M (mode * list string) :=
  emit (ConsoleLog (nl ++ "Available modes:"));;;
  emit (ConsoleLog "1. chat    - Interactive chat mode");;;
  emit (ConsoleLog "2. auto    - Autonomous action mode");;;
  emit (Question mode_prompt);;;
  match inputs with
  | [] => ([], AwaitingInput)
  | line :: rest =>
      let choice := normalize line in
      if (choice =? "1") || (choice =? "chat") then
        emit RlClose;;; ret (Chat, rest)
      else if (choice =? "2") || (choice =? "auto") then
        emit RlClose;;; ret (Auto, rest)
      else
        emit (ConsoleLog invalid_choice);;; chooseMode rest
  end.

(** *** [initializeAgent] *)

(** The agent kit, as far as start-up uses it. *)
Record Agentkit : Type := {
  exportWallet : exn + string
}.

(** The object given to [CdpAgentkit.configureWithWallet]. *)
Record AgentkitConfig : Type := {
  cdpWalletData : option string;
  networkId : string
}.

(** What the collaborators answer during start-up: each call either
    throws or succeeds.  Building the tool kit, the webhook tool, the
    memory and the agent is one step, [createReactAgent]. *)
Record World : Type := {
  new_ChatOpenAI : option exn;
  existsSync : bool;
  readFileSync : exn + string;
  configureWithWallet : AgentkitConfig -> exn + Agentkit;
  createReactAgent : exn + (list string -> string -> exn + stream);
  writeFileSync : string -> option exn
}.

(** What [initializeAgent] leaves behind: the agent and its thread id,
    and the data it wrote to [wallet_data.txt]. *)
Record Initialized : Type := {
  agent_executor : list string -> string -> exn + stream;
  thread_id : string;
  saved_wallet : string
}.

(** A call that throws or returns. *)
Definition attempt {A} (r : exn + A) : M A :=
  match r with
  | inl e => throw e
  | inr a => ret a
  end.

Definition attempt_unit (r : option exn) : M unit :=
  match r with
  | Some e => throw e
  | None => ret tt
  end.

(** [v || undefined]. *)
Definition or_undefined (v : option string) : option string :=
  if truthy v then v else None.

(** The guarded read of the wallet file: [walletDataStr] afterwards. *)
Definition read_wallet_data (w : World) : M (option string) :=
  if existsSync w then
    try_catch
      (data <- attempt (readFileSync w);; ret (Some data))
      (fun error =>
         emit (ConsoleError [AStr "Error reading wallet data:"; AExn error]);;;
         ret None)
  else ret None.

(** [initializeAgent()]. *)
Definition initializeAgent (w : World) (env : ProcessEnv) : M Initialized :=
  try_catch
    (attempt_unit (new_ChatOpenAI w);;;
     walletDataStr <- read_wallet_data w;;
     agentkit <- attempt (configureWithWallet w
                            {| cdpWalletData := or_undefined walletDataStr;
                               networkId := initializeAgent_networkId env |});;
     agent <- attempt (createReactAgent w);;
     exportedWallet <- attempt (exportWallet agentkit);;
     attempt_unit (writeFileSync w exportedWallet);;;
     ret {| agent_executor := agent;
            thread_id := "CDP Agentkit Chatbot Example!";
            saved_wallet := exportedWallet |})
    (fun error =>
       emit (ConsoleError [AStr "Failed to initialize agent:"; AExn error]);;;
       throw error).

(** *** [main] and the entry point *)

(** [main()]; [fuel] bounds the iterations of the autonomous loop. *)
Definition main (w : World) (env : ProcessEnv) (inputs : list string)
  (fuel : nat) : M unit :=
  try_catch
    (init <- initializeAgent w env;;
     choice <- chooseMode inputs;;
     match fst choice with
     | Chat => runChatMode (agent_executor init) (snd choice)
     | Auto => runAutonomousMode (agent_executor init) fuel default_interval
     end)
    catch_and_exit.

(** The module run as a script: the environment check at load time, then
    the entry point. *)
Definition program (w : World) (env : Environment) (inputs : list string)
  (fuel : nat) : M unit :=
  validateEnvironment env;;;
  emit (ConsoleLog "Starting Agent...");;;
  try_catch
    (main w (process_env env) inputs fuel)
    (fun error =>
       emit (ConsoleError [AStr "Fatal error:"; AExn error]);;;
       process_exit 1).

(** *** Observations *)

(** How often a line was asked for. *)
Fixpoint asked (t : trace) : nat :=
  match t with
  | [] => 0
  | Question _ :: t' => S (asked t')
  | _ :: t' => asked t'
  end.

(** How often a reader was closed. *)
Fixpoint closed (t : trace) : nat :=
  match t with
  | [] => 0
  | RlClose :: t' => S (closed t')
  | _ :: t' => closed t'
  end.

(** The delays of the timers that were set, in order. *)
Fixpoint timeouts (t : trace) : list nat :=
  match t with
  | [] => []
  | SetTimeout ms :: t' => ms :: timeouts t'
  | _ :: t' => timeouts t'
  end.

(** The calls of [console.error] and [console.warn], in order. *)
Fixpoint errors (t : trace) : list (list arg) :=
  match t with
  | [] => []
  | ConsoleError args :: t' => args :: errors t'
  | _ :: t' => errors t'
  end.

(** A string of ASCII white space only. *)
Fixpoint all_ascii_space (s : string) : bool :=
  match s with
  | EmptyString => true
  | String c s' => is_ascii_space c && all_ascii_space s'
  end.

(** A string of printable ASCII characters other than the space. *)
Fixpoint all_plain (s : string) : bool :=
  match s with
  | EmptyString => true
  | String c s' =>
      ((33 <=? nat_of_ascii c) && (nat_of_ascii c <=? 126))%nat && all_plain s'
  end.

End Startup.

(** ** Sample inputs *)
Module Samples.
Import Js Eff Zod Webhook Session.

Definition sample_env : ProcessEnv := {| NETWORK_ID := Some "base-mainnet" |}.

Definition sample_provider (o : object) : exn + option string :=
  inr (Some "Webhook { id: 'wh-1' }").

Definition failing_provider (o : object) : exn + option string :=
  inl (ErrorObj "APIError" "request failed").


Definition only_contract (c : string) : option EventFiltersData :=
  Some {| addresses := None; from_address := None; to_address := None;
          contract_address := Some c |}.

Definition sample_transfer_args (ef : option EventFiltersData)
  : CreateWebhookArgs :=
  {| notificationUri := "https://example.com/hook";
     eventType := "erc20_transfer";
     eventTypeFilter := {| monitored_addresses := Some ["0x01"] |};
     eventFilters := ef |}.

Definition sample_is_url (s : string) : bool := prefix "https://" s.

Definition sample_raw_transfer : object :=
  [("notificationUri", JStr "https://example.com/hook");
   ("eventType", JStr "erc721_transfer");
   ("eventTypeFilter", JObj [("addresses", JArr [JStr "0x01"])])].

Definition two_chunks : stream :=
  Yield {| agent := Some ["Checking the balance."]; tools := None |}
    (Yield {| agent := None; tools := Some ["0.5 ETH"] |} EndOfStream).

Definition broken_stream : stream :=
  Yield {| agent := Some ["Working on it."]; tools := None |}
    (Reject (Error "socket hang up")).

(** An agent that always answers with two chunks. *)
Definition sample_agent (history : list string) (text : string)
  : exn + stream := inr two_chunks.

(** An agent whose first turn works and whose later streams break. *)
Definition flaky_agent (history : list string) (text : string)
  : exn + stream :=
  match history with
  | [] => inr two_chunks
  | _ => inr broken_stream
  end.

End Samples.

(** ** Scenarios for the drivers and the start-up *)
Module Scenarios.
Import Js Eff Webhook Session Startup Samples.

(** The stream that yields the chunks [cs] and then goes on as [s]. *)
Fixpoint prepend (cs : list chunk) (s : stream) : stream :=
  match cs with
  | [] => s
  | c :: cs' => Yield c (prepend cs' s)
  end.

(** The same collaborators, with no wallet file on disk. *)
Definition without_wallet_file (w : World) : World :=
  {| new_ChatOpenAI := new_ChatOpenAI w;
     existsSync := false;
     readFileSync := readFileSync w;
     configureWithWallet := configureWithWallet w;
     createReactAgent := createReactAgent w;
     writeFileSync := writeFileSync w |}.

(** The answers [chooseMode] accepts. *)
Definition choices : list string := ["1"; "chat"; "2"; "auto"].

(** How often [chooseMode] reported an invalid choice. *)
Definition rejections (t : trace) : nat :=
  count_occ string_dec (printed t) invalid_choice.

(** A printable ASCII character other than the space. *)
Definition plain (c : ascii) : bool :=
  ((33 <=? nat_of_ascii c) && (nat_of_ascii c <=? 126))%nat.

(** What [chooseMode] writes before it reads a line. *)
Definition menu : trace :=
  [ConsoleLog (nl ++ "Available modes:");
   ConsoleLog "1. chat    - Interactive chat mode";
   ConsoleLog "2. auto    - Autonomous action mode";
   Question mode_prompt].

(** The mode an accepted answer selects. *)
Definition mode_of (choice : string) : mode :=
  if (choice =? "1") || (choice =? "chat") then Chat else Auto.

(** Collaborators that all succeed; the wallet file cannot be read. *)
Definition sample_world : World :=
  {| new_ChatOpenAI := None;
     existsSync := true;
     readFileSync := inl (Error "EACCES: permission denied");
     configureWithWallet := fun _ => inr {| exportWallet := inr "{wallet}" |};
     createReactAgent := inr sample_agent;
     writeFileSync := fun _ => None |}.

(** Collaborators whose agent kit cannot be configured. *)
Definition offline_world : World :=
  {| new_ChatOpenAI := None;
     existsSync := false;
     readFileSync := inr "";
     configureWithWallet := fun _ => inl (Error "network unreachable");
     createReactAgent := inr sample_agent;
     writeFileSync := fun _ => None |}.

(** An environment with every variable set. *)
Definition full_environment : Environment := fun _ => Some "value".

(** An environment that lacks the private key. *)
Definition keyless_environment : Environment :=
  fun name => if name =? "CDP_API_KEY_NAME" then Some "key-name" else None.

End Scenarios.

(** * Properties of the webhook tool *)

Import Js Eff Zod Webhook Samples.

Lemma eqb_nonempty (s : string) : s <> "" -> (s =? "") = false.
Proof. intro H. now apply String.eqb_neq. Qed.

Lemma configured_networkId_some (env : ProcessEnv) (n : string) :
  NETWORK_ID env = Some n -> n <> "" -> configured_networkId env = ret n.
Proof.
  intros Hn Hne. unfold configured_networkId.
  rewrite Hn, (eqb_nonempty n Hne). reflexivity.
Qed.

Lemma configured_networkId_missing (env : ProcessEnv) :
  truthy (NETWORK_ID env) = false ->
  configured_networkId env =
  throw (Error "Network ID is not configured in environment variables").
Proof.
  unfold configured_networkId, truthy.
  destruct (NETWORK_ID env) as [n|]; [|reflexivity].
  destruct (n =? ""); [reflexivity|discriminate].
Qed.

(** [webhookOptions] has no effect of its own: it yields an object or
    throws. *)
Lemma webhookOptions_pure (n : string) (args : CreateWebhookArgs) :
  (exists o, webhookOptions n args = ret o) \/
  (exists e, webhookOptions n args = throw e).
Proof.
  unfold webhookOptions.
  destruct (eventType args =? "wallet_activity"); [left; eauto|].
  destruct (eventType args =? "smart_contract_event_activity"); [left; eauto|].
  destruct ((eventType args =? "erc20_transfer")
            || (eventType args =? "erc721_transfer")); [left; eauto|].
  right; eauto.
Qed.

Section Submission.

Variable Webhook_create : object -> exn + option string.

(** What [createWebhook] does once the network id is there and the
    options are built: one provider call, whose outcome is rendered. *)
Lemma createWebhook_built (env : ProcessEnv) (n : string)
  (args : CreateWebhookArgs) (o : object) :
  NETWORK_ID env = Some n -> n <> "" ->
  webhookOptions n args = ret o ->
  createWebhook Webhook_create env args =
  match Webhook_create o with
  | inr webhook => ([WebhookCreate o], Normal (success_message webhook))
  | inl e =>
      ([WebhookCreate o;
        ConsoleError [AStr "Failed to create webhook:"; AExn e]],
       caught e)
  end.
Proof.
  intros Hn Hne Ho. unfold createWebhook, caught.
  rewrite (configured_networkId_some env n Hn Hne).
  cbv [bind ret]. rewrite Ho.
  cbv [bind ret emit throw await_Webhook_create].
  destruct (Webhook_create o) as [e|w]; [|reflexivity].
  cbn. destruct (to_string e); reflexivity.
Qed.

Lemma createWebhook_not_built (env : ProcessEnv) (n : string)
  (args : CreateWebhookArgs) (e : exn) :
  NETWORK_ID env = Some n -> n <> "" ->
  webhookOptions n args = throw e ->
  createWebhook Webhook_create env args =
  ([ConsoleError [AStr "Failed to create webhook:"; AExn e]], caught e).
Proof.
  intros Hn Hne Ho. unfold createWebhook, caught.
  rewrite (configured_networkId_some env n Hn Hne).
  cbv [bind ret]. rewrite Ho. cbn. destruct (to_string e); reflexivity.
Qed.

Lemma createWebhook_unconfigured (env : ProcessEnv) (args : CreateWebhookArgs) :
  truthy (NETWORK_ID env) = false ->
  createWebhook Webhook_create env args =
  ([ConsoleError
      [AStr "Failed to create webhook:";
       AExn (Error "Network ID is not configured in environment variables")]],
   Normal "Error: Error: Network ID is not configured in environment variables").
Proof.
  intro H. unfold createWebhook.
  rewrite (configured_networkId_missing env H). reflexivity.
Qed.

Lemma submitted_createWebhook_built (env : ProcessEnv) (n : string)
  (args : CreateWebhookArgs) (o : object) :
  NETWORK_ID env = Some n -> n <> "" ->
  webhookOptions n args = ret o ->
  submitted (fst (createWebhook Webhook_create env args)) = [o].
Proof.
  intros Hn Hne Ho. rewrite (createWebhook_built env n args o Hn Hne Ho).
  destruct (Webhook_create o); reflexivity.
Qed.

End Submission.

(** The three conditional spreads write distinct keys, so the literal is
    the concatenation of the parts that are there. *)
Lemma transfer_filter_parts (ef : option EventFiltersData) :
  transfer_filter ef =
  (prop_if_truthy "contract_address" (opt_chain ef contract_address) ++
   prop_if_truthy "from_address" (opt_chain ef from_address) ++
   prop_if_truthy "to_address" (opt_chain ef to_address))%list.
Proof.
  unfold transfer_filter, prop_if_truthy.
  destruct (opt_chain ef contract_address) as [c|];
    [destruct (c =? "")|];
    (destruct (opt_chain ef from_address) as [f|];
       [destruct (f =? "")|]);
    (destruct (opt_chain ef to_address) as [t|];
       [destruct (t =? "")|]);
    reflexivity.
Qed.

Lemma webhookOptions_transfer (n : string) (args : CreateWebhookArgs) :
  eventType args = "erc20_transfer" \/ eventType args = "erc721_transfer" ->
  webhookOptions n args =
  ret [("networkId", JStr n);
       ("notificationUri", JStr (notificationUri args));
       ("eventType", JStr (eventType args));
       ("eventFilters", JArr [JObj (transfer_filter (eventFilters args))])].
Proof.
  intros [H|H]; unfold webhookOptions; rewrite H; reflexivity.
Qed.

Ltac key_cases k :=
  destruct (String.eqb_spec "contract_address" k);
  destruct (String.eqb_spec "from_address" k);
  destruct (String.eqb_spec "to_address" k);
  subst; try discriminate.

Lemma get_transfer_filter (ef : option EventFiltersData) (k : string) (v : json) :
  get k (transfer_filter ef) = Some v <->
  exists s, v = JStr s /\ s <> "" /\ transfer_field ef k = Some s.
Proof.
  rewrite transfer_filter_parts. unfold transfer_field, prop_if_truthy.
  destruct (opt_chain ef contract_address) as [c|];
    [destruct (String.eqb_spec c "")|];
    (destruct (opt_chain ef from_address) as [f|];
       [destruct (String.eqb_spec f "")|]);
    (destruct (opt_chain ef to_address) as [t|];
       [destruct (String.eqb_spec t "")|]);
    cbn [app get]; key_cases k;
    (split;
     [ intro H; try discriminate; injection H as <-; eexists; repeat split; eauto
     | intros (s & -> & Hs & H); try discriminate; injection H as <-;
       try reflexivity; try (exfalso; apply Hs; reflexivity) ]).
Qed.

Lemma NoDup_keys_transfer_filter (ef : option EventFiltersData) :
  NoDup (keys (transfer_filter ef)).
Proof.
  rewrite transfer_filter_parts. unfold prop_if_truthy.
  destruct (opt_chain ef contract_address) as [c|];
    [destruct (c =? "")|];
    (destruct (opt_chain ef from_address) as [f|];
       [destruct (f =? "")|]);
    (destruct (opt_chain ef to_address) as [t|];
       [destruct (t =? "")|]);
    cbn [app keys map fst];
    repeat constructor; cbn [In]; intuition discriminate.
Qed.

(** C1 (as amended).  For [erc20_transfer] and [erc721_transfer],
    [createWebhook] submits [eventFilters] as a one-element list whose
    object holds exactly the transfer fields ([contract_address],
    [from_address], [to_address]) whose input value is a non-empty string,
    each once and with that value; a field that is absent, or given as the
    empty string, is not a key of the object.  With only
    [contract_address] given, and non-empty, the object is exactly that
    one property. *)
Theorem transfer_filters_sparse
  (Webhook_create : object -> exn + option string)
  (env : ProcessEnv) (n : string) (args : CreateWebhookArgs) :
  NETWORK_ID env = Some n -> n <> "" ->
  eventType args = "erc20_transfer" \/ eventType args = "erc721_transfer" ->
  let built := transfer_filter (eventFilters args) in
  submitted (fst (createWebhook Webhook_create env args)) =
    [[("networkId", JStr n);
      ("notificationUri", JStr (notificationUri args));
      ("eventType", JStr (eventType args));
      ("eventFilters", JArr [JObj built])]] /\
  (forall k v,
      get k built = Some v <->
      exists s, v = JStr s /\ s <> "" /\
                transfer_field (eventFilters args) k = Some s) /\
  NoDup (keys built) /\
  (forall a c,
      eventFilters args =
        Some {| addresses := a; from_address := None; to_address := None;
                contract_address := Some c |} ->
      c <> "" -> built = [("contract_address", JStr c)]).
Proof.
  intros Hn Hne Het built. repeat split.
  - apply (submitted_createWebhook_built Webhook_create env n args _ Hn Hne).
    now apply webhookOptions_transfer.
  - apply get_transfer_filter.
  - apply get_transfer_filter.
  - apply NoDup_keys_transfer_filter.
  - intros a c Hef Hc. unfold built. rewrite Hef, transfer_filter_parts.
    cbn. now rewrite (eqb_nonempty c Hc).
Qed.

Lemma transfer_filters_sparse_witness :
  submitted (fst (createWebhook sample_provider sample_env
                    (sample_transfer_args (only_contract "0xCC")))) =
  [[("networkId", JStr "base-mainnet");
    ("notificationUri", JStr "https://example.com/hook");
    ("eventType", JStr "erc20_transfer");
    ("eventFilters", JArr [JObj [("contract_address", JStr "0xCC")]])]].
Proof.
  destruct (transfer_filters_sparse sample_provider sample_env "base-mainnet"
              (sample_transfer_args (only_contract "0xCC")))
    as (H & _ & _ & H1).
  - reflexivity.
  - discriminate.
  - left; reflexivity.
  - rewrite H. rewrite (H1 None "0xCC"); [reflexivity|reflexivity|discriminate].
Defined.

(** C1 (as stated) fails: a transfer field the input populates with the
    empty string is not a key of the built object, so the object does not
    hold exactly the populated fields. *)
Lemma populated_empty_string_is_dropped :
  transfer_field (only_contract "") "contract_address" = Some "" /\
  transfer_filter (only_contract "") = [] /\
  submitted (fst (createWebhook sample_provider sample_env
                    (sample_transfer_args (only_contract "")))) =
  [[("networkId", JStr "base-mainnet");
    ("notificationUri", JStr "https://example.com/hook");
    ("eventType", JStr "erc20_transfer");
    ("eventFilters", JArr [JObj []])]] /\
  ~ (forall ef k s,
        transfer_field ef k = Some s ->
        get k (transfer_filter ef) = Some (JStr s)).
Proof.
  repeat split; try reflexivity.
  intro H. specialize (H (only_contract "") "contract_address" "" eq_refl).
  discriminate H.
Qed.

(** C3.  For [wallet_activity] the submitted request carries
    [eventTypeFilter = { addresses, wallet_id: "" }] with the input
    address list unchanged; for [smart_contract_event_activity] it carries
    [eventTypeFilter = { contract_addresses }] with the same list and no
    [wallet_id]. *)
Theorem address_filter_payloads
  (Webhook_create : object -> exn + option string)
  (n uri : string) (l : list string) (ef : option EventFiltersData) :
  n <> "" ->
  let env := {| NETWORK_ID := Some n |} in
  let args et :=
    {| notificationUri := uri; eventType := et;
       eventTypeFilter := {| monitored_addresses := Some l |};
       eventFilters := ef |} in
  submitted (fst (createWebhook Webhook_create env (args "wallet_activity"))) =
    [[("networkId", JStr n); ("notificationUri", JStr uri);
      ("eventType", JStr "wallet_activity");
      ("eventTypeFilter",
       JObj [("addresses", JArr (map JStr l)); ("wallet_id", JStr "")])]] /\
  submitted (fst (createWebhook Webhook_create env
                    (args "smart_contract_event_activity"))) =
    [[("networkId", JStr n); ("notificationUri", JStr uri);
      ("eventType", JStr "smart_contract_event_activity");
      ("eventTypeFilter",
       JObj [("contract_addresses", JArr (map JStr l))])]].
Proof.
  intros Hne env args. split.
  - now apply (submitted_createWebhook_built Webhook_create env n).
  - now apply (submitted_createWebhook_built Webhook_create env n).
Qed.

Lemma address_filter_payloads_witness :
  submitted (fst (createWebhook sample_provider sample_env
     {| notificationUri := "https://example.com/hook";
        eventType := "wallet_activity";
        eventTypeFilter := {| monitored_addresses := Some ["0x01"; "0x02"] |};
        eventFilters := None |})) =
  [[("networkId", JStr "base-mainnet");
    ("notificationUri", JStr "https://example.com/hook");
    ("eventType", JStr "wallet_activity");
    ("eventTypeFilter",
     JObj [("addresses", JArr [JStr "0x01"; JStr "0x02"]);
           ("wallet_id", JStr "")])]].
Proof.
  apply (address_filter_payloads sample_provider "base-mainnet"
           "https://example.com/hook" ["0x01"; "0x02"] None).
  discriminate.
Defined.

Lemma not_in_options (et : string) :
  ~ In et WebhookEventType_options ->
  (et =? "wallet_activity") = false /\
  (et =? "smart_contract_event_activity") = false /\
  (et =? "erc20_transfer") = false /\
  (et =? "erc721_transfer") = false.
Proof.
  intro H. repeat split; apply String.eqb_neq; intro E; apply H; subst;
    cbn; auto.
Qed.

Lemma webhookOptions_supported (n : string) (args : CreateWebhookArgs) :
  In (eventType args) WebhookEventType_options ->
  exists o, webhookOptions n args = ret o.
Proof.
  intro H. cbn in H. unfold webhookOptions.
  destruct H as [<-|[<-|[<-|[<-|[]]]]]; cbn; eauto.
Qed.

Lemma webhookOptions_unsupported (n : string) (args : CreateWebhookArgs) :
  ~ In (eventType args) WebhookEventType_options ->
  webhookOptions n args =
  throw (Error ("Unsupported event type: " ++ eventType args)).
Proof.
  intro H. destruct (not_in_options _ H) as (H1 & H2 & H3 & H4).
  unfold webhookOptions. now rewrite H1, H2, H3, H4.
Qed.

Lemma truthy_some (v : option string) :
  truthy v = true -> exists n, v = Some n /\ n <> "".
Proof.
  unfold truthy. destruct v as [n|]; [|discriminate].
  intro H. exists n. split; [reflexivity|]. intro E. subst n. discriminate.
Qed.




(** A provider failure comes back as a string, after one call. *)
Example provider_failure_is_returned :
  createWebhook failing_provider sample_env
    (sample_transfer_args (only_contract "0xCC")) =
  (let request :=
     [("networkId", JStr "base-mainnet");
      ("notificationUri", JStr "https://example.com/hook");
      ("eventType", JStr "erc20_transfer");
      ("eventFilters", JArr [JObj [("contract_address", JStr "0xCC")]])] in
   [WebhookCreate request;
    ConsoleError [AStr "Failed to create webhook:";
                  AExn (ErrorObj "APIError" "request failed")]],
   Normal "Error: APIError: request failed").
Proof. reflexivity. Qed.

(** C6.  For an event type outside the four of [WebhookEventType], the
    [switch] throws [Error("Unsupported event type: <value>")]; nothing is
    submitted, and [createWebhook] returns the string
    ["Error: Error: Unsupported event type: <value>"] instead of
    throwing. *)
Theorem unsupported_event_type_is_reported
  (Webhook_create : object -> exn + option string)
  (env : ProcessEnv) (n : string) (args : CreateWebhookArgs) :
  NETWORK_ID env = Some n -> n <> "" ->
  ~ In (eventType args) WebhookEventType_options ->
  webhookOptions n args =
    throw (Error ("Unsupported event type: " ++ eventType args)) /\
  createWebhook Webhook_create env args =
    ([ConsoleError
        [AStr "Failed to create webhook:";
         AExn (Error ("Unsupported event type: " ++ eventType args))]],
     Normal ("Error: Error: Unsupported event type: " ++ eventType args)).
Proof.
  intros Hn Hne Hout.
  destruct (not_in_options _ Hout) as (H1 & H2 & H3 & H4).
  assert (Hopts : webhookOptions n args =
                  throw (Error ("Unsupported event type: " ++ eventType args))).
  { unfold webhookOptions. rewrite H1, H2, H3, H4. reflexivity. }
  split; [exact Hopts|].
  rewrite (createWebhook_not_built Webhook_create env n args _ Hn Hne Hopts).
  reflexivity.
Qed.

Lemma unsupported_event_type_is_reported_witness :
  createWebhook sample_provider sample_env
    {| notificationUri := "https://example.com/hook";
       eventType := "erc1155_transfer";
       eventTypeFilter := {| monitored_addresses := Some ["0x01"] |};
       eventFilters := None |} =
  ([ConsoleError
      [AStr "Failed to create webhook:";
       AExn (Error "Unsupported event type: erc1155_transfer")]],
   Normal "Error: Error: Unsupported event type: erc1155_transfer").
Proof.
  apply (unsupported_event_type_is_reported sample_provider sample_env
           "base-mainnet").
  - reflexivity.
  - discriminate.
  - cbn. intuition discriminate.
Defined.

(** C7.  The network id of a submitted request is the [NETWORK_ID] of the
    process environment (the arguments carry none): with [NETWORK_ID] set
    and a supported event type, [createWebhook] submits one request and
    its [networkId] is that value, whatever the arguments.  When
    [NETWORK_ID] is absent or empty, [createWebhook] raises the
    configuration error, submits nothing and returns it as an error
    string, while the agent configuration built by [initializeAgent]
    falls back to ["base-sepolia"]. *)
Theorem network_id_from_configuration
  (Webhook_create : object -> exn + option string)
  (env : ProcessEnv) (args : CreateWebhookArgs) :
  (truthy (NETWORK_ID env) = false ->
   configured_networkId env =
     throw (Error "Network ID is not configured in environment variables") /\
   createWebhook Webhook_create env args =
     ([ConsoleError
         [AStr "Failed to create webhook:";
          AExn (Error "Network ID is not configured in environment variables")]],
      Normal "Error: Error: Network ID is not configured in environment variables") /\
   submitted (fst (createWebhook Webhook_create env args)) = [] /\
   initializeAgent_networkId env = "base-sepolia") /\
  (forall n, NETWORK_ID env = Some n -> n <> "" ->
   initializeAgent_networkId env = n /\
   (forall o, In o (submitted (fst (createWebhook Webhook_create env args))) ->
              get "networkId" o = Some (JStr n)) /\
   (In (eventType args) WebhookEventType_options ->
    exists o,
      submitted (fst (createWebhook Webhook_create env args)) = [o] /\
      get "networkId" o = Some (JStr n))).
Proof.
  split.
  - intro H. repeat split.
    + now apply configured_networkId_missing.
    + now apply createWebhook_unconfigured.
    + now rewrite createWebhook_unconfigured.
    + unfold initializeAgent_networkId, or_string. unfold truthy in H.
      destruct (NETWORK_ID env) as [m|]; [|reflexivity].
      destruct (m =? ""); [reflexivity|discriminate].
  - intros n Hn Hne.
    assert (Hall : forall o,
               In o (submitted (fst (createWebhook Webhook_create env args))) ->
               get "networkId" o = Some (JStr n)); [|split; [|split]].
    3: exact Hall.
    3: { intro Hin. destruct (webhookOptions_supported n args Hin) as [o Ho].
         exists o.
         pose proof (submitted_createWebhook_built Webhook_create env n args o
                       Hn Hne Ho) as Hs.
         split; [exact Hs|]. apply Hall. rewrite Hs. now left. }
    2: { unfold initializeAgent_networkId, or_string.
         now rewrite Hn, (eqb_nonempty n Hne). }
    + intros o Ho.
      destruct (webhookOptions_pure n args) as [[o' Ho']|[e He]].
      * rewrite (submitted_createWebhook_built Webhook_create env n args o' Hn Hne Ho') in Ho.
        destruct Ho as [<-|[]].
        revert Ho'. unfold webhookOptions, ret, throw.
        destruct (eventType args =? "wallet_activity");
          [intro E; injection E as <-; reflexivity|].
        destruct (eventType args =? "smart_contract_event_activity");
          [intro E; injection E as <-; reflexivity|].
        destruct ((eventType args =? "erc20_transfer")
                  || (eventType args =? "erc721_transfer"));
          [intro E; injection E as <-; reflexivity|discriminate].
      * rewrite (createWebhook_not_built Webhook_create env n args e Hn Hne He) in Ho.
        destruct Ho.
Qed.

Lemma network_id_from_configuration_witness :
  createWebhook sample_provider {| NETWORK_ID := None |}
    (sample_transfer_args (only_contract "0xCC")) =
  ([ConsoleError
      [AStr "Failed to create webhook:";
       AExn (Error "Network ID is not configured in environment variables")]],
   Normal "Error: Error: Network ID is not configured in environment variables") /\
  initializeAgent_networkId {| NETWORK_ID := None |} = "base-sepolia" /\
  initializeAgent_networkId sample_env = "base-mainnet" /\
  exists o,
    submitted (fst (createWebhook sample_provider sample_env
                      (sample_transfer_args (only_contract "0xCC")))) = [o] /\
    get "networkId" o = Some (JStr "base-mainnet").
Proof.
  destruct (network_id_from_configuration sample_provider
              {| NETWORK_ID := None |}
              (sample_transfer_args (only_contract "0xCC"))) as [H _].
  destruct (H eq_refl) as (_ & H1 & _ & H2).
  destruct (network_id_from_configuration sample_provider sample_env
              (sample_transfer_args (only_contract "0xCC"))) as [_ H'].
  destruct (H' "base-mainnet" eq_refl) as (H3 & _ & H4); [discriminate|].
  split; [exact H1|split; [exact H2|split; [exact H3|]]].
  apply H4. cbn. auto.
Defined.

(** ** Validation of the raw arguments *)

Lemma both_inl_r {A B} (ra : result A) (i : list issue) :
  @both A B ra (inl i) = inl (issues_of ra ++ i)%list.
Proof. destruct ra; reflexivity. Qed.

Lemma app_nonempty_r {A} (l1 l2 : list A) : l2 <> [] -> (l1 ++ l2)%list <> [].
Proof. intros H E. apply app_eq_nil in E. now destruct E. Qed.

Lemma unpopulated_cases (raw : object) (k : string) :
  populated raw k = false -> get k raw = None \/ get k raw = Some JNull.
Proof.
  unfold populated. destruct (get k raw) as [[]|]; auto; discriminate.
Qed.

Lemma EventFilters_unpopulated (p : path) (raw : object) :
  (forall k, In k recognized_fields -> populated raw k = false) ->
  exists issues, issues <> [] /\ EventFilters p (Some (JObj raw)) = inl issues.
Proof.
  intro H.
  destruct (unpopulated_cases raw "addresses") as [Ha|Ha];
    [apply H; cbn; auto | |];
    (destruct (unpopulated_cases raw "from_address") as [Hf|Hf];
       [apply H; cbn; auto | |]);
    (destruct (unpopulated_cases raw "to_address") as [Ht|Ht];
       [apply H; cbn; auto | |]);
    (destruct (unpopulated_cases raw "contract_address") as [Hc|Hc];
       [apply H; cbn; auto | |]);
    unfold EventFilters, refine, EventFilters_shape, field;
    rewrite Ha, Hf, Ht, Hc; cbn;
    eexists; (split; [|reflexivity]); discriminate.
Qed.

Lemma EventFilters_no_property (p : path) (raw : object) :
  (forall k, In k recognized_fields -> get k raw = None) ->
  EventFilters p (Some (JObj raw)) =
  inl [custom p "At least one filter must be provided"].
Proof.
  intro H. unfold EventFilters, refine, EventFilters_shape, field.
  rewrite !H by (cbn; auto). reflexivity.
Qed.

(** C2.  A raw filter object that populates none of [addresses],
    [from_address], [to_address], [contract_address] does not parse:
    [EventFilters] reports issues (the "at least one filter" issue when
    the properties are simply missing), whatever the event type.  The
    tool then rejects the arguments without running [createWebhook]. *)
Theorem unpopulated_filters_are_rejected (raw : object) :
  (forall k, In k recognized_fields -> populated raw k = false) ->
  (forall p, exists issues,
      issues <> [] /\ EventFilters p (Some (JObj raw)) = inl issues) /\
  ((forall k, In k recognized_fields -> get k raw = None) ->
   forall p, EventFilters p (Some (JObj raw)) =
             inl [custom p "At least one filter must be provided"]) /\
  (forall Webhook_create is_url env input,
      get "eventFilters" input = Some (JObj raw) ->
      exists issues,
        issues <> [] /\
        create_webhook_tool Webhook_create is_url env (JObj input) = inl issues).
Proof.
  intro H. repeat split.
  - intro p. now apply EventFilters_unpopulated.
  - intros H0 p. now apply EventFilters_no_property.
  - intros W is_url env input Hin.
    destruct (EventFilters_unpopulated [Key "eventFilters"] raw H)
      as (issues & Hne & Hi).
    unfold create_webhook_tool, CreateWebhookInput.
    unfold field at 4. rewrite Hin. unfold optional. cbn [app].
    rewrite Hi. cbn [map_result]. rewrite !both_inl_r. cbn [map_result].
    eexists. split; [|reflexivity].
    repeat apply app_nonempty_r. exact Hne.
Qed.

Lemma unpopulated_filters_are_rejected_witness :
  EventFilters [] (Some (JObj [("token", JStr "USDC")])) =
    inl [custom [] "At least one filter must be provided"] /\
  exists issues,
    issues <> [] /\
    create_webhook_tool sample_provider sample_is_url sample_env
      (JObj [("notificationUri", JStr "https://example.com/hook");
             ("eventType", JStr "erc20_transfer");
             ("eventTypeFilter", JObj [("addresses", JArr [])]);
             ("eventFilters", JObj [("token", JStr "USDC")])]) = inl issues.
Proof.
  destruct (unpopulated_filters_are_rejected [("token", JStr "USDC")])
    as (_ & H1 & H2).
  - intros k Hk. cbn in Hk.
    destruct Hk as [<-|[<-|[<-|[<-|[]]]]]; reflexivity.
  - split.
    + apply H1. intros k Hk. cbn in Hk.
      destruct Hk as [<-|[<-|[<-|[<-|[]]]]]; reflexivity.
    + apply H2. reflexivity.
Defined.

Lemma string_items_strings (p : path) (l : list string) (i : nat) :
  string_items p i (map JStr l) = inr l.
Proof.
  revert i. induction l as [|s l IH]; intro i; [reflexivity|].
  cbn. now rewrite IH.
Qed.

Lemma prop_if_truthy_falsy (k : string) (v : option string) :
  truthy v = false -> prop_if_truthy k v = [].
Proof.
  unfold truthy, prop_if_truthy. destruct v as [s|]; [|reflexivity].
  destruct (s =? ""); [reflexivity|discriminate].
Qed.

Lemma transfer_filter_empty (ef : option EventFiltersData) :
  truthy (transfer_field ef "contract_address") = false ->
  truthy (transfer_field ef "from_address") = false ->
  truthy (transfer_field ef "to_address") = false ->
  transfer_filter ef = [].
Proof.
  cbn. intros Hc Hf Ht. rewrite transfer_filter_parts.
  now rewrite !prop_if_truthy_falsy.
Qed.

(** C10.  [eventFilters] is optional in [CreateWebhookInput]: transfer
    arguments without it parse, and the tool runs [createWebhook] on
    them.  [createWebhook] then does not reject the call: with
    [eventFilters] omitted, or holding no non-empty transfer field, it
    submits the request with [eventFilters = [{}]] to the provider and
    returns what the provider's outcome renders to. *)
Theorem transfer_filters_are_optional
  (Webhook_create : object -> exn + option string)
  (is_url : string -> bool) (env : ProcessEnv)
  (n uri et : string) (input filt : object) (l : list string) :
  NETWORK_ID env = Some n -> n <> "" ->
  get "notificationUri" input = Some (JStr uri) -> is_url uri = true ->
  get "eventType" input = Some (JStr et) ->
  et = "erc20_transfer" \/ et = "erc721_transfer" ->
  get "eventTypeFilter" input = Some (JObj filt) ->
  get "addresses" filt = Some (JArr (map JStr l)) ->
  get "eventFilters" input = None ->
  let args ef :=
    {| notificationUri := uri; eventType := et;
       eventTypeFilter := {| monitored_addresses := Some l |};
       eventFilters := ef |} in
  let request :=
    [("networkId", JStr n); ("notificationUri", JStr uri);
     ("eventType", JStr et); ("eventFilters", JArr [JObj []])] in
  create_webhook_tool Webhook_create is_url env (JObj input) =
    inr (createWebhook Webhook_create env (args None)) /\
  (forall ef,
      ef = None \/
      (truthy (transfer_field ef "contract_address") = false /\
       truthy (transfer_field ef "from_address") = false /\
       truthy (transfer_field ef "to_address") = false) ->
      createWebhook Webhook_create env (args ef) =
      match Webhook_create request with
      | inr webhook => ([WebhookCreate request], Normal (success_message webhook))
      | inl e =>
          ([WebhookCreate request;
            ConsoleError [AStr "Failed to create webhook:"; AExn e]],
           match to_string e with
           | inr rendered => Normal ("Error: " ++ rendered)
           | inl failure => Throw failure
           end)
      end).
Proof.
  intros Hn Hne Huri Hurl Het Hty Hfilt Haddr Hnone args request. split.
  - unfold create_webhook_tool, CreateWebhookInput, field.
    rewrite Huri, Het, Hfilt, Hnone.
    unfold string_url, string_, WebhookEventType, eventTypeFilter_schema,
      field, array_string, optional.
    rewrite Hurl, Haddr, string_items_strings.
    destruct Hty as [-> | ->]; reflexivity.
  - intros ef Hef.
    assert (Hempty : transfer_filter ef = []).
    { destruct Hef as [-> | (Hc & Hf & Ht)]; [reflexivity|].
      now apply transfer_filter_empty. }
    apply (createWebhook_built Webhook_create env n (args ef) request Hn Hne).
    rewrite webhookOptions_transfer by exact Hty.
    cbn. now rewrite Hempty.
Qed.

Lemma transfer_filters_are_optional_witness :
  exists m,
    create_webhook_tool sample_provider sample_is_url sample_env
      (JObj sample_raw_transfer) = inr m /\
    m = ([WebhookCreate
            [("networkId", JStr "base-mainnet");
             ("notificationUri", JStr "https://example.com/hook");
             ("eventType", JStr "erc721_transfer");
             ("eventFilters", JArr [JObj []])]],
         Normal (success_message (Some "Webhook { id: 'wh-1' }"))).
Proof.
  destruct (transfer_filters_are_optional sample_provider sample_is_url
              sample_env "base-mainnet" "https://example.com/hook"
              "erc721_transfer" sample_raw_transfer
              [("addresses", JArr [JStr "0x01"])] ["0x01"])
    as [H1 H2]; try reflexivity.
  - discriminate.
  - right; reflexivity.
  - eexists. split; [exact H1|].
    rewrite (H2 None (or_introl eq_refl)). reflexivity.
Defined.

(** * Properties of the session drivers *)

Import Session.

Ltac by_ascii_cases a :=
  destruct a as [[] [] [] [] [] [] [] []]; reflexivity.

Lemma lower_is_e (a : ascii) :
  (lower_char a =? "e")%char = ((a =? "e") || (a =? "E"))%char.
Proof. by_ascii_cases a. Qed.

Lemma lower_is_x (a : ascii) :
  (lower_char a =? "x")%char = ((a =? "x") || (a =? "X"))%char.
Proof. by_ascii_cases a. Qed.

Lemma lower_is_i (a : ascii) :
  (lower_char a =? "i")%char = ((a =? "i") || (a =? "I"))%char.
Proof. by_ascii_cases a. Qed.

Lemma lower_is_t (a : ascii) :
  (lower_char a =? "t")%char = ((a =? "t") || (a =? "T"))%char.
Proof. by_ascii_cases a. Qed.

(** The test of the chat loop holds exactly on the sixteen spellings of
    the word. *)
Lemma toLowerCase_exit (s : string) :
  (toLowerCase s =? "exit") = is_exit_word s.
Proof.
  destruct s as [|a [|b [|c [|d [|e s]]]]]; cbn [toLowerCase is_exit_word String.eqb];
    rewrite ?lower_is_e, ?lower_is_x, ?lower_is_i, ?lower_is_t;
    repeat match goal with
           | |- context [if ?b then _ else _] => destruct b; cbn [orb andb]
           end; reflexivity.
Qed.

Lemma sent_app (t1 t2 : trace) : sent (t1 ++ t2)%list = (sent t1 ++ sent t2)%list.
Proof.
  induction t1 as [|[] t1 IH]; cbn; try rewrite IH; reflexivity.
Qed.

Lemma printed_app (t1 t2 : trace) :
  printed (t1 ++ t2)%list = (printed t1 ++ printed t2)%list.
Proof.
  induction t1 as [|[] t1 IH]; cbn; try rewrite IH; reflexivity.
Qed.

Lemma sent_logs (ls : list string) : sent (map ConsoleLog ls) = [].
Proof. induction ls; cbn; auto. Qed.

Lemma printed_logs (ls : list string) : printed (map ConsoleLog ls) = ls.
Proof. induction ls; cbn; congruence. Qed.

(** The loop body prints the content line and the separator, or throws
    before printing anything. *)
Lemma loop_body_cases (c : chunk) :
  loop_body c = (map ConsoleLog (content_of c ++ [separator])%list, Normal tt) \/
  exists e, loop_body c = ([], Throw e).
Proof.
  unfold loop_body, content_of.
  destruct (agent c) as [[|m ms]|]; [right; eexists; reflexivity|left; reflexivity|].
  destruct (tools c) as [[|m ms]|];
    [right; eexists; reflexivity|left; reflexivity|left; reflexivity].
Qed.

(** Consuming a stream only prints; it ends normally, having printed
    [lines_of], or throws. *)
Lemma for_await_cases (s : stream) :
  for_await s = (map ConsoleLog (lines_of s), Normal tt) \/
  exists ls e, for_await s = (map ConsoleLog ls, Throw e).
Proof.
  induction s as [|c rest IH|e].
  - left; reflexivity.
  - cbn [for_await]. destruct (loop_body_cases c) as [Hc|[e Hc]]; rewrite Hc.
    + destruct IH as [IH|(ls & e & IH)]; rewrite IH.
      * left. cbn. unfold lines_of. cbn. now rewrite !map_app.
      * right. exists ((content_of c ++ [separator]) ++ ls)%list, e.
        cbn. now rewrite !map_app.
    + right. exists [], e. reflexivity.
  - right. exists [], e. reflexivity.
Qed.

Section TurnFacts.

Variable agent_stream : list string -> string -> exn + stream.

Lemma turn_cases (h : list string) (x : string) :
  exists ls,
    fst (turn agent_stream h x) = AgentStream x :: map ConsoleLog ls /\
    (snd (turn agent_stream h x) = Normal tt \/
     exists e, snd (turn agent_stream h x) = Throw e).
Proof.
  unfold turn, await_agent_stream.
  destruct (agent_stream h x) as [e|s].
  - exists []. cbn. eauto.
  - cbn. destruct (for_await_cases s) as [H|(ls & e & H)]; rewrite H.
    + exists (lines_of s). cbn. auto.
    + exists ls. cbn. eauto.
Qed.

(** A turn whose stream is drained prints [lines_of] that stream. *)
Lemma turn_drained (h : list string) (x : string) (s : stream) :
  agent_stream h x = inr s ->
  snd (for_await s) = Normal tt ->
  turn agent_stream h x = (AgentStream x :: map ConsoleLog (lines_of s), Normal tt).
Proof.
  intros Hs Hd. unfold turn, await_agent_stream. rewrite Hs. cbn.
  destruct (for_await_cases s) as [H|(ls & e & H)]; rewrite H in *.
  - reflexivity.
  - discriminate.
Qed.

Lemma sent_turn (h : list string) (x : string) :
  sent (fst (turn agent_stream h x)) = [x].
Proof.
  destruct (turn_cases h x) as (ls & -> & _). cbn. now rewrite sent_logs.
Qed.

End TurnFacts.

Section ChatFacts.

Variable agent_stream : list string -> string -> exn + stream.

Lemma chat_loop_exit (h : list string) (l : string) (rest : list string) :
  is_exit_word l = true ->
  chat_loop agent_stream h (l :: rest) = ([Question chat_prompt], Normal tt).
Proof.
  intro H. cbn [chat_loop]. rewrite toLowerCase_exit, H. reflexivity.
Qed.

Lemma chat_loop_turn_ok (h : list string) (l : string) (rest : list string) :
  is_exit_word l = false ->
  snd (turn agent_stream h l) = Normal tt ->
  chat_loop agent_stream h (l :: rest) =
  ((Question chat_prompt :: fst (turn agent_stream h l)) ++
   fst (chat_loop agent_stream (h ++ [l]) rest),
   snd (chat_loop agent_stream (h ++ [l]) rest))%list.
Proof.
  intros H Hok. cbn [chat_loop]. rewrite toLowerCase_exit, H.
  destruct (turn agent_stream h l) as [t r]. cbn in Hok. subst r.
  destruct (chat_loop agent_stream (h ++ [l]) rest) as [t' r']; reflexivity.
Qed.

Lemma chat_loop_turn_throws (h : list string) (l : string)
  (rest : list string) (e : exn) :
  is_exit_word l = false ->
  snd (turn agent_stream h l) = Throw e ->
  chat_loop agent_stream h (l :: rest) =
  (Question chat_prompt :: fst (turn agent_stream h l), Throw e).
Proof.
  intros H Hth. cbn [chat_loop]. rewrite toLowerCase_exit, H.
  destruct (turn agent_stream h l) as [t r]. cbn in Hth. subst r.
  reflexivity.
Qed.

(** The loop runs one turn per line of a prefix of good lines and then
    goes on with the rest of the input. *)
Lemma chat_loop_prefix (pre h rest : list string) :
  turns_ok agent_stream h pre ->
  exists t,
    sent t = pre /\
    chat_loop agent_stream h (pre ++ rest) =
    (t ++ fst (chat_loop agent_stream (h ++ pre) rest),
     snd (chat_loop agent_stream (h ++ pre) rest))%list.
Proof.
  revert h. induction pre as [|l pre IH]; intros h Hok.
  - exists []. rewrite app_nil_r. split; [reflexivity|].
    cbn [app]. now destruct (chat_loop agent_stream h rest).
  - destruct Hok as (Hl & Hturn & Hok).
    destruct (IH (h ++ [l])%list Hok) as (t & Hsent & Hrun).
    exists ((Question chat_prompt :: fst (turn agent_stream h l)) ++ t)%list.
    split.
    + rewrite sent_app. cbn [sent]. now rewrite sent_turn, Hsent.
    + cbn [app]. rewrite (chat_loop_turn_ok h l (pre ++ rest) Hl Hturn).
      rewrite Hrun. cbn [fst snd].
      rewrite <- !app_assoc. cbn [app]. reflexivity.
Qed.

Lemma sent_catch_and_exit (e : exn) :
  sent (fst (catch_and_exit e)) = [] /\ snd (catch_and_exit e) = Exit 1.
Proof. destruct e; split; reflexivity. Qed.

(** [runChatMode] around its loop: a [break] closes the reader and
    returns, an error is reported and exits with status 1. *)
Lemma runChatMode_outcome (inputs : list string) :
  let run := chat_loop agent_stream [] inputs in
  sent (fst (runChatMode agent_stream inputs)) = sent (fst run) /\
  snd (runChatMode agent_stream inputs) =
  match snd run with
  | Normal _ => Normal tt
  | Throw _ => Exit 1
  | other => other
  end.
Proof.
  unfold runChatMode.
  destruct (chat_loop agent_stream [] inputs) as [t [[]|e|c| |]]; cbn;
    try (rewrite ?sent_app, ?app_nil_r; cbn; rewrite ?app_nil_r; auto).
  destruct e; cbn; rewrite ?sent_app, ?app_nil_r; cbn;
    rewrite ?app_nil_r; auto.
Qed.

End ChatFacts.

Section AutoFacts.

Variable agent_stream : list string -> string -> exn + stream.

Lemma auto_iteration_ok (fuel interval : nat) (h : list string) :
  snd (turn agent_stream h thought) = Normal tt ->
  auto_loop agent_stream (S fuel) interval h =
  ((fst (turn agent_stream h thought) ++ [SetTimeout (interval * 1000)]) ++
   fst (auto_loop agent_stream fuel interval (h ++ [thought])),
   snd (auto_loop agent_stream fuel interval (h ++ [thought])))%list.
Proof.
  intro Hok. cbn [auto_loop].
  destruct (turn agent_stream h thought) as [t r]. cbn [snd] in Hok. subst r.
  destruct (auto_loop agent_stream fuel interval (h ++ [thought])%list)
    as [t' r'].
  cbn. rewrite ?app_nil_r. reflexivity.
Qed.

Lemma auto_iteration_throws (fuel interval : nat) (h : list string) (e : exn) :
  snd (turn agent_stream h thought) = Throw e ->
  auto_loop agent_stream (S fuel) interval h =
  ((fst (turn agent_stream h thought) ++ fst (catch_and_exit e))%list, Exit 1).
Proof.
  intro Hth. cbn [auto_loop].
  destruct (turn agent_stream h thought) as [t r]. cbn [snd] in Hth. subst r.
  destruct e; reflexivity.
Qed.

Lemma auto_loop_fatal (interval : nat) (e : exn) (k : nat) :
  forall (h : list string) (fuel : nat),
    (forall i, i < k ->
               snd (turn agent_stream (h ++ repeat thought i) thought) = Normal tt) ->
    snd (turn agent_stream (h ++ repeat thought k) thought) = Throw e ->
    k < fuel ->
    snd (auto_loop agent_stream fuel interval h) = Exit 1 /\
    sent (fst (auto_loop agent_stream fuel interval h)) = repeat thought (S k).
Proof.
  induction k as [|k IH]; intros h fuel Hok Hth Hfuel;
    (destruct fuel as [|fuel]; [lia|]).
  - cbn [repeat] in Hth. rewrite app_nil_r in Hth.
    rewrite (auto_iteration_throws fuel interval h e Hth). split; [reflexivity|].
    cbn [fst]. rewrite sent_app, sent_turn.
    now destruct (sent_catch_and_exit e) as [-> _].
  - assert (H0 : snd (turn agent_stream h thought) = Normal tt).
    { specialize (Hok 0 ltac:(lia)). cbn [repeat] in Hok.
      now rewrite app_nil_r in Hok. }
    rewrite (auto_iteration_ok fuel interval h H0). cbn [fst snd].
    destruct (IH (h ++ [thought])%list fuel) as [Hexit Hsent].
    + intros i Hi. rewrite <- app_assoc. cbn [app].
      apply (Hok (S i)). lia.
    + rewrite <- app_assoc. exact Hth.
    + lia.
    + split; [exact Hexit|].
      rewrite !sent_app, sent_turn, Hsent. reflexivity.
Qed.

End AutoFacts.

(** C8.  In chat mode a line that is one of the spellings of "exit" ends
    the loop: [runChatMode] returns, and the messages sent to the agent
    are exactly the lines before it, one turn each, none for the exit
    line or anything after it.  A line that is not such a spelling is
    sent as one message, and after a completed turn the loop is back at
    its prompt. *)
Theorem exit_ends_chat_without_sending
  (agent_stream : list string -> string -> exn + stream)
  (pre : list string) (l : string) (rest : list string) :
  turns_ok agent_stream [] pre ->
  (is_exit_word l = true ->
   snd (runChatMode agent_stream (pre ++ l :: rest)) = Normal tt /\
   sent (fst (runChatMode agent_stream (pre ++ l :: rest))) = pre) /\
  (is_exit_word l = false ->
   sent (fst (runChatMode agent_stream (pre ++ [l]))) = (pre ++ [l])%list) /\
  (snd (runChatMode agent_stream pre) = AwaitingInput /\
   sent (fst (runChatMode agent_stream pre)) = pre).
Proof.
  intro Hok. split; [|split].
  - intro Hl.
    destruct (runChatMode_outcome agent_stream (pre ++ l :: rest)) as [-> ->].
    destruct (chat_loop_prefix agent_stream pre [] (l :: rest) Hok)
      as (t & Hsent & ->).
    cbn [fst snd app]. rewrite chat_loop_exit by exact Hl. split; [reflexivity|].
    cbn [fst]. rewrite sent_app, Hsent. cbn. now rewrite app_nil_r.
  - intro Hl.
    destruct (runChatMode_outcome agent_stream (pre ++ [l])) as [-> _].
    destruct (chat_loop_prefix agent_stream pre [] [l] Hok)
      as (t & Hsent & ->).
    cbn [fst app]. rewrite sent_app, Hsent. f_equal.
    destruct (turn_cases agent_stream pre l) as (ls & Hfst & [Hr|[e Hr]]).
    + rewrite (chat_loop_turn_ok agent_stream pre l [] Hl Hr).
      cbn [fst]. rewrite sent_app. cbn [sent]. rewrite sent_turn. reflexivity.
    + rewrite (chat_loop_turn_throws agent_stream pre l [] e Hl Hr).
      cbn [fst sent]. apply sent_turn.
  - destruct (runChatMode_outcome agent_stream pre) as [-> ->].
    destruct (chat_loop_prefix agent_stream pre [] [] Hok) as (t & Hsent & H).
    rewrite app_nil_r in H. rewrite H. cbn [fst snd app]. split; [reflexivity|].
    rewrite sent_app, Hsent. cbn. now rewrite app_nil_r.
Qed.

(** C9.  An error thrown during a turn (by the agent call or while its
    stream is consumed) ends the process with exit status 1, and the
    failing turn is the last one: in chat mode no later line is sent, in
    autonomous mode no further iteration runs. *)
Theorem stream_error_is_fatal
  (agent_stream : list string -> string -> exn + stream) :
  (forall pre l rest e,
      turns_ok agent_stream [] pre ->
      is_exit_word l = false ->
      snd (turn agent_stream pre l) = Throw e ->
      snd (runChatMode agent_stream (pre ++ l :: rest)) = Exit 1 /\
      sent (fst (runChatMode agent_stream (pre ++ l :: rest))) =
        (pre ++ [l])%list) /\
  (forall k e fuel interval,
      (forall i, i < k ->
         snd (turn agent_stream (repeat thought i) thought) = Normal tt) ->
      snd (turn agent_stream (repeat thought k) thought) = Throw e ->
      k < fuel ->
      snd (runAutonomousMode agent_stream fuel interval) = Exit 1 /\
      sent (fst (runAutonomousMode agent_stream fuel interval)) =
        repeat thought (S k)).
Proof.
  split.
  - intros pre l rest e Hok Hl Hth.
    destruct (runChatMode_outcome agent_stream (pre ++ l :: rest)) as [-> ->].
    destruct (chat_loop_prefix agent_stream pre [] (l :: rest) Hok)
      as (t & Hsent & ->).
    cbn [fst snd app].
    rewrite (chat_loop_turn_throws agent_stream pre l rest e Hl Hth).
    split; [reflexivity|].
    cbn [fst]. rewrite sent_app, Hsent. cbn [sent]. now rewrite sent_turn.
  - intros k e fuel interval Hok Hth Hfuel.
    destruct (auto_loop_fatal agent_stream interval e k [] fuel Hok Hth Hfuel)
      as [Hexit Hsent].
    unfold runAutonomousMode.
    destruct (auto_loop agent_stream fuel interval []) as [t r].
    cbn in Hexit, Hsent |- *. subst r. split; [reflexivity|exact Hsent].
Qed.

Lemma exit_ends_chat_without_sending_witness :
  snd (runChatMode sample_agent ["hello"; "Exit"; "later"]) = Normal tt /\
  sent (fst (runChatMode sample_agent ["hello"; "Exit"; "later"])) = ["hello"].
Proof.
  destruct (exit_ends_chat_without_sending sample_agent ["hello"] "Exit"
              ["later"]) as (H & _ & _).
  - cbn. repeat split; reflexivity.
  - exact (H eq_refl).
Defined.

Lemma stream_error_is_fatal_witness :
  (snd (runChatMode flaky_agent ["hello"; "again"; "more"]) = Exit 1 /\
   sent (fst (runChatMode flaky_agent ["hello"; "again"; "more"])) =
     ["hello"; "again"]) /\
  (snd (runAutonomousMode flaky_agent 5 default_interval) = Exit 1 /\
   sent (fst (runAutonomousMode flaky_agent 5 default_interval)) =
     [thought; thought]).
Proof.
  destruct (stream_error_is_fatal flaky_agent) as [Hchat Hauto]. split.
  - apply (Hchat ["hello"] "again" ["more"] (Error "socket hang up")).
    + cbn. repeat split; reflexivity.
    + reflexivity.
    + reflexivity.
  - apply (Hauto 1 (Error "socket hang up") 5 default_interval).
    + intros i Hi. destruct i; [reflexivity|lia].
    + reflexivity.
    + lia.
Defined.

Lemma separators_lines_of (s : stream) :
  Forall (fun c => ~ In separator (content_of c)) (chunks s) ->
  count_occ string_dec (lines_of s) separator = length (chunks s).
Proof.
  unfold lines_of. induction (chunks s) as [|c cs IH]; intro H; [reflexivity|].
  inversion H as [|? ? Hc Hcs]; subst.
  cbn [flat_map length]. rewrite !count_occ_app, (IH Hcs).
  apply (count_occ_not_In string_dec) in Hc. rewrite Hc.
  cbn [count_occ].
  destruct (string_dec separator separator) as [_|Hne];
    [reflexivity|now destruct Hne].
Qed.

(** C5 (as stated) fails: a chat turn whose stream yields two chunks
    prints two separator lines, one after each chunk, not one after the
    whole turn. *)
Lemma separator_printed_per_chunk :
  is_exit_word "hello" = false /\
  printed (fst (runChatMode sample_agent ["hello"])) =
    ["Starting chat mode... Type 'exit' to end.";
     "Checking the balance."; separator; "0.5 ETH"; separator] /\
  separators (fst (runChatMode sample_agent ["hello"])) = 2 /\
  printed (fst (runAutonomousMode sample_agent 1 default_interval)) =
    ["Starting autonomous mode...";
     "Checking the balance."; separator; "0.5 ETH"; separator] /\
  ~ (forall agent_stream l,
        is_exit_word l = false ->
        snd (turn agent_stream [] l) = Normal tt ->
        separators (fst (runChatMode agent_stream [l])) = 1).
Proof.
  repeat split; try reflexivity.
  intro H. specialize (H sample_agent "hello" eq_refl eq_refl).
  discriminate H.
Qed.

Lemma separators_lines_of_chunks (cs : list chunk) :
  Forall (fun c => ~ In separator (content_of c)) cs ->
  count_occ string_dec (lines_of_chunks cs) separator = length cs.
Proof.
  unfold lines_of_chunks. induction cs as [|c cs IH]; intro H; [reflexivity|].
  inversion H as [|? ? Hc Hcs]; subst.
  cbn [flat_map length]. rewrite !count_occ_app, (IH Hcs).
  apply (count_occ_not_In string_dec) in Hc. rewrite Hc.
  cbn [count_occ].
  destruct (string_dec separator separator) as [_|Hne];
    [reflexivity|now destruct Hne].
Qed.

Lemma lines_of_streams (ss : list stream) :
  flat_map lines_of ss = lines_of_chunks (flat_map chunks ss).
Proof.
  unfold lines_of_chunks. induction ss as [|s ss IH]; [reflexivity|].
  cbn [flat_map]. rewrite flat_map_app, IH. reflexivity.
Qed.

Section PrintedFacts.

Variable agent_stream : list string -> string -> exn + stream.

(** A completed turn is a returned stream that was drained. *)
Lemma turn_completed (h : list string) (x : string) :
  snd (turn agent_stream h x) = Normal tt ->
  exists s,
    agent_stream h x = inr s /\
    turn agent_stream h x =
      (AgentStream x :: map ConsoleLog (lines_of s), Normal tt).
Proof.
  unfold turn, await_agent_stream.
  destruct (agent_stream h x) as [e|s]; [discriminate|].
  cbn. destruct (for_await_cases s) as [H|(ls & e & H)]; rewrite H; cbn;
    [|discriminate].
  intros _. exists s. auto.
Qed.

(** What the chat loop prints over a prefix of completed turns. *)
Lemma chat_loop_printed (pre : list string) :
  forall h rest,
    turns_ok agent_stream h pre ->
    length (streams_of agent_stream h pre) = length pre /\
    printed (fst (chat_loop agent_stream h (pre ++ rest))) =
      (flat_map lines_of (streams_of agent_stream h pre) ++
       printed (fst (chat_loop agent_stream (h ++ pre) rest)))%list.
Proof.
  induction pre as [|l pre IH]; intros h rest Hok.
  - cbn [app streams_of flat_map length]. now rewrite app_nil_r.
  - destruct Hok as (Hl & Hturn & Hok).
    destruct (turn_completed h l Hturn) as (s & Hs & Ht).
    destruct (IH (h ++ [l])%list rest Hok) as [Hlen Hp].
    cbn [app streams_of]. rewrite Hs. cbn [flat_map length]. split.
    + now rewrite Hlen.
    + rewrite (chat_loop_turn_ok agent_stream h l (pre ++ rest) Hl Hturn).
      rewrite Ht. cbn [fst app printed].
      rewrite !printed_app, printed_logs, Hp, <- !app_assoc. reflexivity.
Qed.

Lemma runChatMode_printed (inputs : list string) :
  printed (fst (runChatMode agent_stream inputs)) =
  "Starting chat mode... Type 'exit' to end." ::
  printed (fst (chat_loop agent_stream [] inputs)).
Proof.
  unfold runChatMode.
  destruct (chat_loop agent_stream [] inputs) as [t [[]|e|c| |]]; cbn;
    rewrite ?printed_app, ?app_nil_r; cbn; rewrite ?app_nil_r; try reflexivity.
  destruct e; cbn; rewrite ?printed_app, ?app_nil_r; cbn;
    rewrite ?app_nil_r; reflexivity.
Qed.

(** What the autonomous loop prints while its turns complete. *)
Lemma auto_loop_printed (interval fuel : nat) :
  forall h,
    (forall i, i < fuel ->
       snd (turn agent_stream (h ++ repeat thought i) thought) = Normal tt) ->
    length (streams_of agent_stream h (repeat thought fuel)) = fuel /\
    printed (fst (auto_loop agent_stream fuel interval h)) =
      flat_map lines_of (streams_of agent_stream h (repeat thought fuel)).
Proof.
  induction fuel as [|fuel IH]; intros h Hok.
  - split; reflexivity.
  - assert (H0 : snd (turn agent_stream h thought) = Normal tt).
    { specialize (Hok 0 ltac:(lia)). cbn [repeat] in Hok.
      now rewrite app_nil_r in Hok. }
    destruct (turn_completed h thought H0) as (s & Hs & Ht).
    destruct (IH (h ++ [thought])%list) as [Hlen Hp].
    { intros i Hi. rewrite <- app_assoc. cbn [app]. apply (Hok (S i)). lia. }
    cbn [repeat streams_of]. rewrite Hs. cbn [flat_map length]. split.
    + now rewrite Hlen.
    + rewrite (auto_iteration_ok agent_stream fuel interval h H0).
      rewrite Ht. cbn [fst app printed].
      rewrite !printed_app, printed_logs, Hp. cbn [printed app].
      now rewrite app_nil_r.
Qed.

End PrintedFacts.

(** C5 (as amended).  In both modes, over any number of completed turns,
    the lines printed are the start line and then, for each turn in
    order and each chunk of its stream in order, the chunk's content
    line (if it has one) followed by one separator line; nothing is
    printed after the last chunk of a turn, so the run prints as many
    separators as its turns have chunks.  In chat mode this holds after
    any prefix of non-exit lines, also when an exit line follows; in
    autonomous mode for any number of iterations. *)
Theorem separator_follows_each_chunk
  (agent_stream : list string -> string -> exn + stream) :
  (forall pre,
      turns_ok agent_stream [] pre ->
      length (streams_of agent_stream [] pre) = length pre /\
      printed (fst (runChatMode agent_stream pre)) =
        "Starting chat mode... Type 'exit' to end." ::
        flat_map lines_of (streams_of agent_stream [] pre) /\
      (forall l rest,
          is_exit_word l = true ->
          printed (fst (runChatMode agent_stream (pre ++ l :: rest))) =
            "Starting chat mode... Type 'exit' to end." ::
            flat_map lines_of (streams_of agent_stream [] pre)) /\
      (Forall (fun c => ~ In separator (content_of c))
              (flat_map chunks (streams_of agent_stream [] pre)) ->
       separators (fst (runChatMode agent_stream pre)) =
         length (flat_map chunks (streams_of agent_stream [] pre)))) /\
  (forall fuel interval,
      (forall i, i < fuel ->
         snd (turn agent_stream (repeat thought i) thought) = Normal tt) ->
      length (streams_of agent_stream [] (repeat thought fuel)) = fuel /\
      printed (fst (runAutonomousMode agent_stream fuel interval)) =
        "Starting autonomous mode..." ::
        flat_map lines_of (streams_of agent_stream [] (repeat thought fuel)) /\
      (Forall (fun c => ~ In separator (content_of c))
              (flat_map chunks (streams_of agent_stream [] (repeat thought fuel))) ->
       separators (fst (runAutonomousMode agent_stream fuel interval)) =
         length (flat_map chunks
                   (streams_of agent_stream [] (repeat thought fuel))))).
Proof.
  split.
  - intros pre Hok.
    destruct (chat_loop_printed agent_stream pre [] [] Hok) as [Hlen Hp].
    rewrite app_nil_r in Hp. cbn [app] in Hp.
    assert (Hrun : printed (fst (runChatMode agent_stream pre)) =
                   "Starting chat mode... Type 'exit' to end." ::
                   flat_map lines_of (streams_of agent_stream [] pre)).
    { rewrite runChatMode_printed, Hp. cbn. now rewrite app_nil_r. }
    split; [exact Hlen|]. split; [exact Hrun|]. split.
    + intros l rest Hl.
      destruct (chat_loop_printed agent_stream pre [] (l :: rest) Hok)
        as [_ Hp'].
      rewrite runChatMode_printed, Hp'. cbn [app].
      rewrite (chat_loop_exit agent_stream pre l rest Hl). cbn.
      now rewrite app_nil_r.
    + intro Hc. unfold separators. rewrite Hrun. cbn [count_occ].
      destruct (string_dec _ separator) as [E|_]; [discriminate E|].
      rewrite lines_of_streams. now apply separators_lines_of_chunks.
  - intros fuel interval Hok.
    destruct (auto_loop_printed agent_stream interval fuel [] Hok)
      as [Hlen Hp].
    assert (Hrun : printed (fst (runAutonomousMode agent_stream fuel interval)) =
                   "Starting autonomous mode..." ::
                   flat_map lines_of
                     (streams_of agent_stream [] (repeat thought fuel))).
    { unfold runAutonomousMode.
      destruct (auto_loop agent_stream fuel interval []) as [t r].
      cbn in Hp |- *. now rewrite Hp. }
    split; [exact Hlen|]. split; [exact Hrun|].
    intro Hc. unfold separators. rewrite Hrun. cbn [count_occ].
    destruct (string_dec _ separator) as [E|_]; [discriminate E|].
    rewrite lines_of_streams. now apply separators_lines_of_chunks.
Qed.

Lemma separator_follows_each_chunk_witness :
  printed (fst (runChatMode sample_agent ["hello"; "again"])) =
    ["Starting chat mode... Type 'exit' to end.";
     "Checking the balance."; separator; "0.5 ETH"; separator;
     "Checking the balance."; separator; "0.5 ETH"; separator] /\
  separators (fst (runChatMode sample_agent ["hello"; "again"])) = 4 /\
  separators (fst (runAutonomousMode sample_agent 3 default_interval)) = 6.
Proof.
  destruct (separator_follows_each_chunk sample_agent) as [Hchat Hauto].
  destruct (Hchat ["hello"; "again"]) as (_ & Hp & _ & Hn).
  { cbn. repeat split; reflexivity. }
  destruct (Hauto 3 default_interval) as (_ & _ & Hm).
  { intros i Hi. reflexivity. }
  split; [exact Hp|]. split.
  - apply Hn. repeat constructor; cbn; intuition discriminate.
  - apply Hm. repeat constructor; cbn; intuition discriminate.
Defined.

(** * Further properties of the webhook tool *)

Lemma truthy_of_some (n : string) : n <> "" -> truthy (Some n) = true.
Proof. intro H. cbn. now rewrite (eqb_nonempty n H). Qed.

(** [createWebhook] depends on its arguments only through the options
    it builds. *)
Lemma createWebhook_ext
  (Webhook_create : object -> exn + option string)
  (env : ProcessEnv) (a1 a2 : CreateWebhookArgs) :
  (forall n, webhookOptions n a1 = webhookOptions n a2) ->
  createWebhook Webhook_create env a1 = createWebhook Webhook_create env a2.
Proof.
  intro H. unfold createWebhook, bind.
  destruct (configured_networkId env) as [t [n|e|c| |]]; try reflexivity.
  now rewrite H.
Qed.

(** X1.  [createWebhook] calls the provider at most once, and exactly once
    when [NETWORK_ID] is set and the event type is one of the four. *)
Theorem provider_called_at_most_once
  (Webhook_create : object -> exn + option string)
  (env : ProcessEnv) (args : CreateWebhookArgs) :
  length (submitted (fst (createWebhook Webhook_create env args))) <= 1 /\
  (length (submitted (fst (createWebhook Webhook_create env args))) = 1 <->
   truthy (NETWORK_ID env) = true /\
   In (eventType args) WebhookEventType_options).
Proof.
  destruct (truthy (NETWORK_ID env)) eqn:Hn.
  - destruct (truthy_some _ Hn) as (n & En & Hne).
    destruct (in_dec string_dec (eventType args) WebhookEventType_options)
      as [Hin|Hout].
    + destruct (webhookOptions_supported n args Hin) as [o Ho].
      rewrite (submitted_createWebhook_built Webhook_create env n args o En Hne Ho).
      cbn. split; [lia|]. split; auto.
    + rewrite (createWebhook_not_built Webhook_create env n args _ En Hne
                 (webhookOptions_unsupported n args Hout)).
      cbn. split; [lia|]. split; [discriminate|]. intros [_ H]. contradiction.
  - rewrite (createWebhook_unconfigured Webhook_create env args Hn).
    cbn. split; [lia|]. split; [discriminate|]. intros [H _]. discriminate.
Qed.

(** X2.  A success message is returned only after the provider accepted
    the request: the trace is then that one call and nothing was written
    to [console.error]. *)
Theorem success_means_created
  (Webhook_create : object -> exn + option string)
  (env : ProcessEnv) (args : CreateWebhookArgs) (webhook : option string) :
  snd (createWebhook Webhook_create env args) =
    Normal (success_message webhook) ->
  exists o created,
    Webhook_create o = inr created /\
    success_message created = success_message webhook /\
    fst (createWebhook Webhook_create env args) = [WebhookCreate o].
Proof.
  destruct (truthy (NETWORK_ID env)) eqn:Hn.
  - destruct (truthy_some _ Hn) as (n & En & Hne).
    destruct (webhookOptions_pure n args) as [[o Ho]|[e He]].
    + rewrite (createWebhook_built Webhook_create env n args o En Hne Ho).
      destruct (Webhook_create o) as [e|w] eqn:Hw; cbn [fst snd].
      * unfold caught. destruct (to_string e); intro H; discriminate H.
      * intro H. exists o, w.
        split; [exact Hw|split; [congruence|reflexivity]].
    + rewrite (createWebhook_not_built Webhook_create env n args e En Hne He).
      cbn [snd]. unfold caught. destruct (to_string e); intro H; discriminate H.
  - rewrite (createWebhook_unconfigured Webhook_create env args Hn).
    intro H. discriminate H.
Qed.

Lemma success_means_created_witness :
  exists o created,
    sample_provider o = inr created /\
    success_message created = success_message (Some "Webhook { id: 'wh-1' }") /\
    fst (createWebhook sample_provider sample_env
           (sample_transfer_args (only_contract "0xCC"))) = [WebhookCreate o].
Proof.
  apply (success_means_created sample_provider sample_env
           (sample_transfer_args (only_contract "0xCC"))).
  reflexivity.
Defined.

(** X3.  The branch taken decides which filter argument is read: for
    [wallet_activity] and [smart_contract_event_activity] the whole call
    is independent of [eventFilters], and for [erc20_transfer] and
    [erc721_transfer] it is independent of [eventTypeFilter], whose
    addresses are not sent. *)
Theorem unused_filter_argument_is_ignored
  (Webhook_create : object -> exn + option string)
  (env : ProcessEnv) (uri et : string)
  (etf etf' : EventTypeFilterData) (ef ef' : option EventFiltersData) :
  (et = "wallet_activity" \/ et = "smart_contract_event_activity" ->
   createWebhook Webhook_create env
     {| notificationUri := uri; eventType := et;
        eventTypeFilter := etf; eventFilters := ef |} =
   createWebhook Webhook_create env
     {| notificationUri := uri; eventType := et;
        eventTypeFilter := etf; eventFilters := ef' |}) /\
  (et = "erc20_transfer" \/ et = "erc721_transfer" ->
   createWebhook Webhook_create env
     {| notificationUri := uri; eventType := et;
        eventTypeFilter := etf; eventFilters := ef |} =
   createWebhook Webhook_create env
     {| notificationUri := uri; eventType := et;
        eventTypeFilter := etf'; eventFilters := ef |}).
Proof.
  split; intros [-> | ->]; apply createWebhook_ext; intro n; reflexivity.
Qed.

Lemma unused_filter_argument_is_ignored_witness :
  createWebhook sample_provider sample_env
    {| notificationUri := "https://example.com/hook";
       eventType := "erc20_transfer";
       eventTypeFilter := {| monitored_addresses := Some ["0x01"] |};
       eventFilters := only_contract "0xCC" |} =
  createWebhook sample_provider sample_env
    {| notificationUri := "https://example.com/hook";
       eventType := "erc20_transfer";
       eventTypeFilter := {| monitored_addresses := Some [] |};
       eventFilters := only_contract "0xCC" |}.
Proof.
  destruct (unused_filter_argument_is_ignored sample_provider sample_env
              "https://example.com/hook" "erc20_transfer"
              {| monitored_addresses := Some ["0x01"] |}
              {| monitored_addresses := Some [] |}
              (only_contract "0xCC") None) as [_ H].
  apply H. left; reflexivity.
Defined.

(** X4.  Every request handed to the provider has four properties, in
    this order: [networkId], [notificationUri], [eventType] (the last two
    as given in the arguments) and then one filter property,
    [eventTypeFilter] for the two address event types or [eventFilters]
    for the two transfer event types, never both. *)
Theorem submitted_request_shape
  (Webhook_create : object -> exn + option string)
  (env : ProcessEnv) (args : CreateWebhookArgs) (o : object) :
  In o (submitted (fst (createWebhook Webhook_create env args))) ->
  get "notificationUri" o = Some (JStr (notificationUri args)) /\
  get "eventType" o = Some (JStr (eventType args)) /\
  ((keys o = ["networkId"; "notificationUri"; "eventType"; "eventTypeFilter"] /\
    (eventType args = "wallet_activity" \/
     eventType args = "smart_contract_event_activity")) \/
   (keys o = ["networkId"; "notificationUri"; "eventType"; "eventFilters"] /\
    (eventType args = "erc20_transfer" \/ eventType args = "erc721_transfer"))).
Proof.
  destruct (truthy (NETWORK_ID env)) eqn:Hn.
  - destruct (truthy_some _ Hn) as (n & En & Hne).
    destruct (webhookOptions_pure n args) as [[o' Ho']|[e He]].
    + rewrite (submitted_createWebhook_built Webhook_create env n args o' En Hne Ho').
      intros [<-|[]]. revert Ho'. unfold webhookOptions, ret, throw.
      destruct (String.eqb_spec (eventType args) "wallet_activity") as [E|_];
        [intro H; injection H as <-; cbn; auto 6|].
      destruct (String.eqb_spec (eventType args) "smart_contract_event_activity")
        as [E|_]; [intro H; injection H as <-; cbn; auto 6|].
      destruct (String.eqb_spec (eventType args) "erc20_transfer") as [E|_];
        [intro H; injection H as <-; cbn; auto 6|].
      destruct (String.eqb_spec (eventType args) "erc721_transfer") as [E|_];
        [intro H; injection H as <-; cbn; auto 6|discriminate].
    + rewrite (createWebhook_not_built Webhook_create env n args e En Hne He).
      intros [].
  - rewrite (createWebhook_unconfigured Webhook_create env args Hn). intros [].
Qed.

Lemma submitted_request_shape_witness :
  exists o,
    keys o = ["networkId"; "notificationUri"; "eventType"; "eventFilters"] /\
    In o (submitted (fst (createWebhook sample_provider sample_env
                            (sample_transfer_args (only_contract "0xCC"))))).
Proof.
  eexists. split; [|left; reflexivity].
  destruct (submitted_request_shape sample_provider sample_env
              (sample_transfer_args (only_contract "0xCC")) _
              (or_introl eq_refl)) as (_ & _ & [[_ [H|H]]|[H _]]).
  - discriminate H.
  - discriminate H.
  - exact H.
Defined.

(** ** Further properties of the schemas *)

Lemma both_inr {A B} (ra : result A) (rb : result B) (x : A * B) :
  both ra rb = inr x -> ra = inr (fst x) /\ rb = inr (snd x).
Proof.
  destruct ra as [i|a], rb as [j|b]; cbn; intro H; try discriminate.
  injection H as <-. auto.
Qed.

Lemma map_result_inr {A B} (f : A -> B) (r : result A) (b : B) :
  map_result f r = inr b -> exists a, r = inr a /\ b = f a.
Proof.
  destruct r as [i|a]; cbn; intro H; [discriminate|].
  injection H as <-. eauto.
Qed.

Lemma both_rejects_l {A B} (ra : result A) (rb : result B) (i : list issue) :
  ra = inl i -> i <> [] -> exists j, j <> [] /\ both ra rb = inl j.
Proof.
  intros -> Hi. exists (i ++ issues_of rb)%list. split; [|now destruct rb].
  intro E. apply app_eq_nil in E. now destruct E.
Qed.

Lemma both_rejects_r {A B} (ra : result A) (rb : result B) (i : list issue) :
  rb = inl i -> i <> [] -> exists j, j <> [] /\ both ra rb = inl j.
Proof.
  intros -> Hi. exists (issues_of ra ++ i)%list. split; [|apply both_inl_r].
  now apply app_nonempty_r.
Qed.

Lemma map_result_rejects {A B} (f : A -> B) (r : result A) :
  (exists j, j <> [] /\ r = inl j) ->
  exists j, j <> [] /\ map_result f r = inl j.
Proof. intros (j & Hj & ->). exists j. auto. Qed.

(** [WebhookEventType] accepts a value exactly when it is one of the
    four event type strings, and yields that string. *)
Lemma WebhookEventType_accepts_the_four (p : path) (v : option json)
  (s : string) :
  WebhookEventType p v = inr s <->
  v = Some (JStr s) /\ In s WebhookEventType_options.
Proof.
  unfold WebhookEventType. split.
  - destruct v as [[| | |s'| |]|]; try discriminate.
    destruct (existsb (String.eqb s') WebhookEventType_options) eqn:E;
      [|discriminate].
    intro H. injection H as <-. split; [reflexivity|].
    apply existsb_exists in E. destruct E as (x & Hx & Heq).
    apply String.eqb_eq in Heq. now subst x.
  - intros [-> Hin].
    assert (E : existsb (String.eqb s) WebhookEventType_options = true).
    { apply existsb_exists. exists s. split; [exact Hin|apply String.eqb_refl]. }
    now rewrite E.
Qed.

(** What a successful parse of [CreateWebhookInput] says about its
    result. *)
Lemma CreateWebhookInput_inr (is_url : string -> bool) (p : path)
  (v : option json) (args : CreateWebhookArgs) :
  CreateWebhookInput is_url p v = inr args ->
  exists o,
    v = Some (JObj o) /\
    field (string_url is_url) p o "notificationUri" = inr (notificationUri args) /\
    field WebhookEventType p o "eventType" = inr (eventType args) /\
    field eventTypeFilter_schema p o "eventTypeFilter" = inr (eventTypeFilter args) /\
    field (optional EventFilters) p o "eventFilters" = inr (eventFilters args).
Proof.
  unfold CreateWebhookInput.
  destruct v as [[| | | | |o]|]; try discriminate.
  intro H. apply map_result_inr in H. destruct H as (x & Hx & ->).
  apply both_inr in Hx. destruct Hx as [H1 Hx].
  apply both_inr in Hx. destruct Hx as [H2 Hx].
  apply both_inr in Hx. destruct Hx as [H3 H4].
  exists o. cbn. auto.
Qed.

(** X6.  Arguments the tool lets through always reach the provider when
    [NETWORK_ID] is set: their event type is one of the four, so the
    unsupported-type branch of [createWebhook] is not taken and exactly
    one request, carrying the configured network id, is submitted. *)
Theorem validated_arguments_reach_provider
  (Webhook_create : object -> exn + option string)
  (is_url : string -> bool) (env : ProcessEnv) (n : string)
  (raw : json) (m : M string) :
  NETWORK_ID env = Some n -> n <> "" ->
  create_webhook_tool Webhook_create is_url env raw = inr m ->
  exists args o,
    m = createWebhook Webhook_create env args /\
    In (eventType args) WebhookEventType_options /\
    webhookOptions n args = ret o /\
    submitted (fst m) = [o].
Proof.
  intros Hn Hne. unfold create_webhook_tool.
  destruct (CreateWebhookInput is_url [] (Some raw)) as [i|args] eqn:Hp;
    [discriminate|].
  intro H. injection H as <-.
  destruct (CreateWebhookInput_inr is_url [] (Some raw) args Hp)
    as (o & _ & _ & Het & _).
  apply WebhookEventType_accepts_the_four in Het. destruct Het as [_ Hin].
  destruct (webhookOptions_supported n args Hin) as [opts Hopts].
  exists args, opts. repeat split; try assumption.
  apply (submitted_createWebhook_built Webhook_create env n args opts Hn Hne Hopts).
Qed.

Lemma validated_arguments_reach_provider_witness :
  exists args o,
    inr (createWebhook sample_provider sample_env args) =
      create_webhook_tool sample_provider sample_is_url sample_env
        (JObj sample_raw_transfer) /\
    In (eventType args) WebhookEventType_options /\
    submitted (fst (createWebhook sample_provider sample_env args)) = [o].
Proof.
  destruct (validated_arguments_reach_provider sample_provider sample_is_url
              sample_env "base-mainnet" (JObj sample_raw_transfer)
              (createWebhook sample_provider sample_env
                 {| notificationUri := "https://example.com/hook";
                    eventType := "erc721_transfer";
                    eventTypeFilter := {| monitored_addresses := Some ["0x01"] |};
                    eventFilters := None |}))
    as (args & o & Hm & Hin & _ & Hs).
  - reflexivity.
  - discriminate.
  - reflexivity.
  - exists {| notificationUri := "https://example.com/hook";
              eventType := "erc721_transfer";
              eventTypeFilter := {| monitored_addresses := Some ["0x01"] |};
              eventFilters := None |}, o.
    split; [reflexivity|]. split; [cbn; auto|]. exact Hs.
Defined.

Lemma map_JStr_inj (l l' : list string) : map JStr l = map JStr l' -> l = l'.
Proof.
  revert l'. induction l as [|s l IH]; intros [|s' l'] H; try discriminate;
    [reflexivity|].
  cbn in H. injection H as -> H. f_equal. now apply IH.
Qed.

Lemma string_items_inr (p : path) (items : list json) :
  forall i l, string_items p i items = inr l -> items = map JStr l.
Proof.
  induction items as [|x items IH]; intros i l H.
  - cbn in H. injection H as <-. reflexivity.
  - cbn [string_items] in H. apply map_result_inr in H.
    destruct H as ([s l'] & Hb & ->). apply both_inr in Hb.
    destruct Hb as [Hs Hl]. cbn [fst snd] in *.
    destruct x; try discriminate. cbn in Hs. injection Hs as ->.
    cbn. f_equal. now apply (IH (S i)).
Qed.

Lemma optional_string_inr (p : path) (v : option json) (x : option string) :
  optional string_ p v = inr x ->
  (v = None /\ x = None) \/ (exists s, v = Some (JStr s) /\ x = Some s).
Proof.
  destruct v as [[| | |s| |]|]; cbn; intro H; try discriminate;
    injection H as <-; eauto.
Qed.

Lemma optional_array_inr (p : path) (v : option json)
  (x : option (list string)) :
  optional array_string p v = inr x ->
  (v = None /\ x = None) \/
  (exists l, v = Some (JArr (map JStr l)) /\ x = Some l).
Proof.
  destruct v as [[| | | |items|]|]; cbn; intro H; try discriminate.
  - destruct (string_items p 0 items) as [i|l] eqn:E; [discriminate|].
    cbn in H. injection H as <-. right. exists l.
    now rewrite (string_items_inr p items 0 l E).
  - injection H as <-. auto.
Qed.

(** What a successful parse of [EventFilters] says about its result. *)
Lemma EventFilters_inr (p : path) (raw : object) (d : EventFiltersData) :
  EventFilters p (Some (JObj raw)) = inr d ->
  optional array_string (p ++ [Key "addresses"])%list (get "addresses" raw)
    = inr (addresses d) /\
  optional string_ (p ++ [Key "from_address"])%list (get "from_address" raw)
    = inr (from_address d) /\
  optional string_ (p ++ [Key "to_address"])%list (get "to_address" raw)
    = inr (to_address d) /\
  optional string_ (p ++ [Key "contract_address"])%list (get "contract_address" raw)
    = inr (contract_address d) /\
  (0 <? length (Object_keys d))%nat = true.
Proof.
  unfold EventFilters, refine.
  destruct (EventFilters_shape p (Some (JObj raw))) as [i|d'] eqn:E;
    [discriminate|].
  destruct (0 <? length (Object_keys d'))%nat eqn:Hk; [|discriminate].
  intro H. injection H as <-.
  unfold EventFilters_shape in E. apply map_result_inr in E.
  destruct E as (x & Hx & ->).
  apply both_inr in Hx. destruct Hx as [H1 Hx].
  apply both_inr in Hx. destruct Hx as [H2 Hx].
  apply both_inr in Hx. destruct Hx as [H3 H4].
  cbn. auto.
Qed.

(** X7.  The data of an accepted filter mirrors the raw object: a string
    field is there exactly when the raw property is that string,
    [addresses] is there exactly when the raw property is that array of
    strings, at least one of them is there, and the keys of the data are
    the recognized properties the raw object has, in schema order. *)
Theorem EventFilters_data_mirrors_raw (p : path) (raw : object)
  (d : EventFiltersData) :
  EventFilters p (Some (JObj raw)) = inr d ->
  (forall l, addresses d = Some l <->
             get "addresses" raw = Some (JArr (map JStr l))) /\
  (forall s, from_address d = Some s <->
             get "from_address" raw = Some (JStr s)) /\
  (forall s, to_address d = Some s <->
             get "to_address" raw = Some (JStr s)) /\
  (forall s, contract_address d = Some s <->
             get "contract_address" raw = Some (JStr s)) /\
  Object_keys d <> [] /\
  Object_keys d =
    filter (fun k => match get k raw with Some _ => true | None => false end)
           recognized_fields.
Proof.
  intro H. destruct (EventFilters_inr p raw d H) as (Ha & Hf & Ht & Hc & Hk).
  apply optional_array_inr in Ha. apply optional_string_inr in Hf.
  apply optional_string_inr in Ht. apply optional_string_inr in Hc.
  assert (Hne : Object_keys d <> []).
  { intro E. rewrite E in Hk. discriminate. }
  repeat split; try exact Hne.
  - intro E. destruct Ha as [[_ Hx]|(l0 & Hg & Hx)]; congruence.
  - intro E. destruct Ha as [[Hg _]|(l0 & Hg & Hx)]; [congruence|].
    rewrite Hg in E. injection E as E. apply map_JStr_inj in E. congruence.
  - intro E. destruct Hf as [[_ Hx]|(s0 & Hg & Hx)]; congruence.
  - intro E. destruct Hf as [[Hg _]|(s0 & Hg & Hx)]; congruence.
  - intro E. destruct Ht as [[_ Hx]|(s0 & Hg & Hx)]; congruence.
  - intro E. destruct Ht as [[Hg _]|(s0 & Hg & Hx)]; congruence.
  - intro E. destruct Hc as [[_ Hx]|(s0 & Hg & Hx)]; congruence.
  - intro E. destruct Hc as [[Hg _]|(s0 & Hg & Hx)]; congruence.
  - unfold Object_keys, recognized_fields. cbn [filter].
    destruct Ha as [[-> ->]|(l0 & -> & ->)];
      destruct Hf as [[-> ->]|(s1 & -> & ->)];
      destruct Ht as [[-> ->]|(s2 & -> & ->)];
      destruct Hc as [[-> ->]|(s3 & -> & ->)]; reflexivity.
Qed.

Lemma EventFilters_data_mirrors_raw_witness :
  EventFilters [] (Some (JObj [("memo", JStr "x"); ("from_address", JStr "0xAA")]))
    = inr {| addresses := None; from_address := Some "0xAA";
             to_address := None; contract_address := None |} /\
  Object_keys {| addresses := None; from_address := Some "0xAA";
                 to_address := None; contract_address := None |}
    = ["from_address"].
Proof.
  split; [reflexivity|].
  destruct (EventFilters_data_mirrors_raw []
              [("memo", JStr "x"); ("from_address", JStr "0xAA")]
              {| addresses := None; from_address := Some "0xAA";
                 to_address := None; contract_address := None |} eq_refl)
    as (_ & _ & _ & _ & _ & Hk).
  exact Hk.
Defined.

(** X8.  [EventFilters] reads the four recognized properties and nothing
    else: two raw objects that agree on them get the same result, be it
    the data or the issues, so an unknown property neither causes a
    rejection nor counts as a filter. *)
Theorem EventFilters_reads_recognized_only (p : path) (raw raw' : object) :
  (forall k, In k recognized_fields -> get k raw = get k raw') ->
  EventFilters p (Some (JObj raw)) = EventFilters p (Some (JObj raw')).
Proof.
  intro H. unfold EventFilters, refine, EventFilters_shape, field.
  rewrite !H by (cbn; auto). reflexivity.
Qed.

Lemma EventFilters_reads_recognized_only_witness :
  EventFilters [] (Some (JObj [("memo", JStr "x"); ("to_address", JStr "0xBB")])) =
  EventFilters [] (Some (JObj [("to_address", JStr "0xBB")])).
Proof.
  apply EventFilters_reads_recognized_only.
  intros k Hk. cbn in Hk.
  destruct Hk as [<-|[<-|[<-|[<-|[]]]]]; reflexivity.
Defined.

(** X9.  The "at least one filter" check counts properties, not usable
    transfer fields: a filter that only names [addresses], or whose
    transfer fields are empty strings, is accepted, and for a transfer
    event type the request then goes out with [eventFilters = [{}]]. *)
Theorem accepted_filter_may_build_empty_object
  (Webhook_create : object -> exn + option string)
  (is_url : string -> bool) (env : ProcessEnv)
  (n uri et : string) (input filt f : object) (l la : list string) :
  NETWORK_ID env = Some n -> n <> "" ->
  get "notificationUri" input = Some (JStr uri) -> is_url uri = true ->
  get "eventType" input = Some (JStr et) ->
  et = "erc20_transfer" \/ et = "erc721_transfer" ->
  get "eventTypeFilter" input = Some (JObj filt) ->
  get "addresses" filt = Some (JArr (map JStr l)) ->
  get "eventFilters" input = Some (JObj f) ->
  (get "addresses" f = None \/ get "addresses" f = Some (JArr (map JStr la))) ->
  (get "from_address" f = None \/ get "from_address" f = Some (JStr "")) ->
  (get "to_address" f = None \/ get "to_address" f = Some (JStr "")) ->
  (get "contract_address" f = None \/ get "contract_address" f = Some (JStr "")) ->
  (exists k, In k recognized_fields /\ get k f <> None) ->
  exists args,
    create_webhook_tool Webhook_create is_url env (JObj input) =
      inr (createWebhook Webhook_create env args) /\
    eventFilters args <> None /\
    submitted (fst (createWebhook Webhook_create env args)) =
      [[("networkId", JStr n); ("notificationUri", JStr uri);
        ("eventType", JStr et); ("eventFilters", JArr [JObj []])]].
Proof.
  intros Hn Hne Huri Hurl Het Hty Hfilt Haddr Hef Ha Hf Ht Hc (k & Hk & Hsome).
  unfold create_webhook_tool, CreateWebhookInput, field.
  rewrite Huri, Het, Hfilt, Hef.
  unfold string_url, string_, WebhookEventType, eventTypeFilter_schema,
    field, array_string, optional, EventFilters, refine, EventFilters_shape,
    field, array_string, optional, string_.
  rewrite Hurl, Haddr, string_items_strings.
  cbn in Hk.
  destruct Ha as [Ha|Ha], Hf as [Hf|Hf], Ht as [Ht|Ht], Hc as [Hc|Hc];
    try (exfalso; destruct Hk as [<-|[<-|[<-|[<-|[]]]]]; contradiction);
    rewrite Ha, Hf, Ht, Hc, ?string_items_strings;
    (destruct Hty as [-> | ->];
     (cbn; eexists;
      (split;
       [reflexivity
       |split;
        [discriminate
        |eapply (submitted_createWebhook_built Webhook_create env n _ _ Hn Hne);
         reflexivity]]))).
Qed.

Lemma accepted_filter_may_build_empty_object_witness :
  exists args,
    create_webhook_tool sample_provider sample_is_url sample_env
      (JObj (sample_raw_transfer ++
             [("eventFilters", JObj [("from_address", JStr "")])])) =
      inr (createWebhook sample_provider sample_env args) /\
    eventFilters args <> None /\
    submitted (fst (createWebhook sample_provider sample_env args)) =
      [[("networkId", JStr "base-mainnet");
        ("notificationUri", JStr "https://example.com/hook");
        ("eventType", JStr "erc721_transfer");
        ("eventFilters", JArr [JObj []])]].
Proof.
  apply (accepted_filter_may_build_empty_object sample_provider sample_is_url
           sample_env "base-mainnet" "https://example.com/hook"
           "erc721_transfer" _ [("addresses", JArr [JStr "0x01"])]
           [("from_address", JStr "")] ["0x01"] []);
    try reflexivity.
  - discriminate.
  - right; reflexivity.
  - left; reflexivity.
  - right; reflexivity.
  - left; reflexivity.
  - left; reflexivity.
  - exists "from_address". split; [cbn; auto|discriminate].
Defined.

Lemma rejects_l {A B} (ra : result A) (rb : result B) :
  (exists i, i <> [] /\ ra = inl i) ->
  exists j, j <> [] /\ both ra rb = inl j.
Proof. intros (i & Hi & E). now apply (both_rejects_l ra rb i). Qed.

Lemma rejects_r {A B} (ra : result A) (rb : result B) :
  (exists i, i <> [] /\ rb = inl i) ->
  exists j, j <> [] /\ both ra rb = inl j.
Proof. intros (i & Hi & E). now apply (both_rejects_r ra rb i). Qed.

(** X10.  Arguments that lack [notificationUri], [eventType] or
    [eventTypeFilter], whose [notificationUri] is not a URL, or whose
    [eventTypeFilter] has no [addresses], are rejected by the tool with
    at least one issue; [createWebhook] is not run. *)
Theorem incomplete_arguments_are_rejected
  (Webhook_create : object -> exn + option string)
  (is_url : string -> bool) (env : ProcessEnv) (input : object) :
  get "notificationUri" input = None \/
  (exists s, get "notificationUri" input = Some (JStr s) /\ is_url s = false) \/
  get "eventType" input = None \/
  get "eventTypeFilter" input = None \/
  (exists filt, get "eventTypeFilter" input = Some (JObj filt) /\
                get "addresses" filt = None) ->
  exists issues,
    issues <> [] /\
    create_webhook_tool Webhook_create is_url env (JObj input) = inl issues.
Proof.
  intro H.
  assert (R : exists j, j <> [] /\
                        CreateWebhookInput is_url [] (Some (JObj input)) = inl j).
  { unfold CreateWebhookInput. apply map_result_rejects.
    destruct H as [H|[(s & H & Hs)|[H|[H|(filt & H & Hf)]]]].
    - apply rejects_l. unfold field, string_url. rewrite H.
      eexists. split; [|reflexivity]. discriminate.
    - apply rejects_l. unfold field, string_url. rewrite H. cbn. rewrite Hs.
      eexists. split; [|reflexivity]. discriminate.
    - apply rejects_r, rejects_l. unfold field. rewrite H.
      eexists. split; [|reflexivity]. discriminate.
    - apply rejects_r, rejects_r, rejects_l. unfold field. rewrite H.
      eexists. split; [|reflexivity]. discriminate.
    - apply rejects_r, rejects_r, rejects_l.
      unfold field, eventTypeFilter_schema, field. rewrite H, Hf.
      eexists. split; [|reflexivity]. discriminate. }
  destruct R as (j & Hj & E). exists j. split; [exact Hj|].
  unfold create_webhook_tool. now rewrite E.
Qed.

Lemma incomplete_arguments_are_rejected_witness :
  exists issues,
    issues <> [] /\
    create_webhook_tool sample_provider sample_is_url sample_env
      (JObj [("notificationUri", JStr "not a url");
             ("eventType", JStr "wallet_activity");
             ("eventTypeFilter", JObj [("addresses", JArr [JStr "0x01"])])])
    = inl issues.
Proof.
  apply incomplete_arguments_are_rejected.
  right; left. exists "not a url". split; reflexivity.
Defined.

(** * Further properties of the session drivers *)

Import Startup Scenarios.

Lemma closed_app (t1 t2 : trace) :
  closed (t1 ++ t2)%list = closed t1 + closed t2.
Proof.
  induction t1 as [|[] t1 IH]; cbn; try rewrite IH; reflexivity.
Qed.

Lemma timeouts_app (t1 t2 : trace) :
  timeouts (t1 ++ t2)%list = (timeouts t1 ++ timeouts t2)%list.
Proof.
  induction t1 as [|[] t1 IH]; cbn; try rewrite IH; reflexivity.
Qed.

Lemma asked_app (t1 t2 : trace) :
  asked (t1 ++ t2)%list = asked t1 + asked t2.
Proof.
  induction t1 as [|[] t1 IH]; cbn; try rewrite IH; reflexivity.
Qed.

Lemma errors_app (t1 t2 : trace) :
  errors (t1 ++ t2)%list = (errors t1 ++ errors t2)%list.
Proof.
  induction t1 as [|[] t1 IH]; cbn; try rewrite IH; reflexivity.
Qed.

Lemma logs_only (ls : list string) :
  closed (map ConsoleLog ls) = 0 /\ timeouts (map ConsoleLog ls) = [] /\
  asked (map ConsoleLog ls) = 0 /\ errors (map ConsoleLog ls) = [].
Proof. induction ls; cbn; auto. Qed.

(** X11.  Consuming a stream stops at the first failure: what the chunks
    before it printed stays, and neither the failing chunk (not even its
    separator) nor anything after it is printed.  The failure is a
    rejection of the stream or a chunk whose [messages] is empty. *)
Theorem consumption_stops_at_first_failure (cs : list chunk) :
  snd (for_await (stream_of cs)) = Normal tt ->
  (forall e,
      for_await (prepend cs (Reject e)) =
      (map ConsoleLog (lines_of (stream_of cs)), Throw e)) /\
  (forall bad rest,
      agent bad = Some [] \/ (agent bad = None /\ tools bad = Some []) ->
      for_await (prepend cs (Yield bad rest)) =
      (map ConsoleLog (lines_of (stream_of cs)),
       Throw (TypeError "Cannot read properties of undefined (reading 'content')"))).
Proof.
  induction cs as [|c cs IH]; intro Hok.
  - split; [reflexivity|].
    intros bad rest [Hb|[Ha Hb]]; cbn; unfold loop_body; rewrite ?Ha, Hb;
      reflexivity.
  - cbn [stream_of for_await] in Hok.
    destruct (loop_body_cases c) as [Hc|[e Hc]]; rewrite Hc in Hok;
      [|discriminate Hok].
    assert (Hcs : snd (for_await (stream_of cs)) = Normal tt).
    { destruct (for_await_cases (stream_of cs)) as [H|(ls & e & H)];
        rewrite H in *; [reflexivity|discriminate Hok]. }
    destruct (IH Hcs) as [IH1 IH2].
    split.
    + intro e. cbn [prepend for_await]. rewrite Hc, IH1.
      cbn. unfold lines_of. cbn. now rewrite !map_app.
    + intros bad rest Hb. cbn [prepend for_await]. rewrite Hc, (IH2 bad rest Hb).
      cbn. unfold lines_of. cbn. now rewrite !map_app.
Qed.

Lemma consumption_stops_at_first_failure_witness :
  for_await (prepend (chunks two_chunks) (Reject (Error "socket hang up"))) =
  (map ConsoleLog ["Checking the balance."; separator; "0.5 ETH"; separator],
   Throw (Error "socket hang up")).
Proof.
  destruct (consumption_stops_at_first_failure (chunks two_chunks) eq_refl)
    as [H _].
  exact (H (Error "socket hang up")).
Defined.

Section ChatOutcomes.

Variable agent_stream : list string -> string -> exn + stream.

Lemma turn_quiet (h : list string) (x : string) :
  closed (fst (turn agent_stream h x)) = 0 /\
  timeouts (fst (turn agent_stream h x)) = [] /\
  asked (fst (turn agent_stream h x)) = 0 /\
  errors (fst (turn agent_stream h x)) = [].
Proof.
  destruct (turn_cases agent_stream h x) as (ls & -> & _). cbn.
  apply logs_only.
Qed.

(** The chat loop closes nothing and ends in one of three ways. *)
Lemma chat_loop_outcomes (inputs : list string) :
  forall h,
    closed (fst (chat_loop agent_stream h inputs)) = 0 /\
    ((snd (chat_loop agent_stream h inputs) = Normal tt /\
      existsb is_exit_word inputs = true) \/
     (exists e, snd (chat_loop agent_stream h inputs) = Throw e) \/
     (snd (chat_loop agent_stream h inputs) = AwaitingInput /\
      existsb is_exit_word inputs = false)).
Proof.
  induction inputs as [|l rest IH]; intro h.
  - cbn. auto.
  - cbn [existsb]. destruct (is_exit_word l) eqn:Hl.
    + rewrite (chat_loop_exit agent_stream h l rest Hl). cbn. auto.
    + destruct (turn_quiet h l) as (Hc & _).
      destruct (turn_cases agent_stream h l) as (ls & _ & [Hr|[e Hr]]).
      * rewrite (chat_loop_turn_ok agent_stream h l rest Hl Hr).
        cbn [fst snd app closed orb]. rewrite closed_app, Hc.
        apply (IH (h ++ [l])%list).
      * rewrite (chat_loop_turn_throws agent_stream h l rest e Hl Hr).
        cbn [fst snd closed]. rewrite Hc. split; [reflexivity|]. right; left.
        now exists e.
Qed.

End ChatOutcomes.

(** X12.  [runChatMode] ends in exactly three ways: it returns, having
    closed its reader once, only if some line was a spelling of "exit";
    it exits with status 1 without closing the reader; or it is still
    waiting for a line, no line having been an exit word.  It never
    throws to its caller. *)
Theorem chat_mode_outcomes
  (agent_stream : list string -> string -> exn + stream)
  (inputs : list string) :
  let run := runChatMode agent_stream inputs in
  (snd run = Normal tt /\ closed (fst run) = 1 /\
   existsb is_exit_word inputs = true) \/
  (snd run = Exit 1 /\ closed (fst run) = 0) \/
  (snd run = AwaitingInput /\ closed (fst run) = 0 /\
   existsb is_exit_word inputs = false).
Proof.
  cbv zeta. unfold runChatMode.
  destruct (chat_loop_outcomes agent_stream inputs [])
    as (Hc & [[Hr Hex]|[[e Hr]|[Hr Hex]]]);
    destruct (chat_loop agent_stream [] inputs) as [t r];
    cbn [fst snd] in Hc, Hr; subst r.
  - left. cbn. rewrite closed_app, Hc. cbn. auto.
  - right; left. destruct e; cbn; rewrite ?closed_app, ?app_nil_r, Hc; auto.
  - right; right. cbn. rewrite ?app_nil_r, Hc. auto.
Qed.

(** X13.  The chat loop compares the whole line: a line that is not four
    characters long, such as an exit word with a space after it, is not
    an exit word and is sent to the agent as a message. *)
Theorem padded_exit_is_sent
  (agent_stream : list string -> string -> exn + stream) (l : string) :
  String.length l <> 4 ->
  is_exit_word l = false /\
  sent (fst (runChatMode agent_stream [l])) = [l].
Proof.
  intro Hlen.
  assert (Hl : is_exit_word l = false).
  { destruct l as [|a [|b [|c [|d [|e l]]]]]; try reflexivity.
    exfalso. apply Hlen. reflexivity. }
  split; [exact Hl|].
  destruct (runChatMode_outcome agent_stream [l]) as [-> _].
  destruct (turn_cases agent_stream [] l) as (ls & _ & [Hr|[e Hr]]).
  - rewrite (chat_loop_turn_ok agent_stream [] l [] Hl Hr).
    cbn [fst app sent]. rewrite sent_app, sent_turn. reflexivity.
  - rewrite (chat_loop_turn_throws agent_stream [] l [] e Hl Hr).
    cbn [fst sent]. apply sent_turn.
Qed.

Lemma padded_exit_is_sent_witness :
  is_exit_word "exit " = false /\
  sent (fst (runChatMode sample_agent ["exit "])) = ["exit "].
Proof.
  apply (padded_exit_is_sent sample_agent "exit "). discriminate.
Defined.

Section AutoOutcomes.

Variable agent_stream : list string -> string -> exn + stream.

Lemma quiet_catch_and_exit (e : exn) :
  closed (fst (catch_and_exit e)) = 0 /\
  timeouts (fst (catch_and_exit e)) = [] /\
  asked (fst (catch_and_exit e)) = 0.
Proof. destruct e; cbn; auto. Qed.

(** The autonomous loop reads no input, closes nothing, and is either
    still looping or has exited with status 1. *)
Lemma auto_loop_outcomes (interval fuel : nat) :
  forall h,
    asked (fst (auto_loop agent_stream fuel interval h)) = 0 /\
    closed (fst (auto_loop agent_stream fuel interval h)) = 0 /\
    (snd (auto_loop agent_stream fuel interval h) = StillRunning \/
     snd (auto_loop agent_stream fuel interval h) = Exit 1).
Proof.
  induction fuel as [|fuel IH]; intro h.
  - cbn. auto.
  - destruct (turn_quiet agent_stream h thought) as (Hc & _ & Ha & _).
    destruct (turn_cases agent_stream h thought) as (ls & _ & [Hr|[e Hr]]).
    + rewrite (auto_iteration_ok agent_stream fuel interval h Hr).
      cbn [fst snd]. rewrite !asked_app, !closed_app, Hc, Ha. cbn.
      apply (IH (h ++ [thought])%list).
    + rewrite (auto_iteration_throws agent_stream fuel interval h e Hr).
      cbn [fst snd]. rewrite asked_app, closed_app, Hc, Ha.
      destruct (quiet_catch_and_exit e) as (-> & _ & ->). auto.
Qed.

(** While every turn completes, each iteration sends the fixed prompt
    and then sets one timer. *)
Lemma auto_loop_paced (interval fuel : nat) :
  forall h,
    (forall i, i < fuel ->
       snd (turn agent_stream (h ++ repeat thought i) thought) = Normal tt) ->
    snd (auto_loop agent_stream fuel interval h) = StillRunning /\
    sent (fst (auto_loop agent_stream fuel interval h)) = repeat thought fuel /\
    timeouts (fst (auto_loop agent_stream fuel interval h)) =
      repeat (interval * 1000) fuel.
Proof.
  induction fuel as [|fuel IH]; intros h Hok.
  - cbn. auto.
  - assert (H0 : snd (turn agent_stream h thought) = Normal tt).
    { specialize (Hok 0 ltac:(lia)). cbn [repeat] in Hok.
      now rewrite app_nil_r in Hok. }
    destruct (turn_quiet agent_stream h thought) as (_ & Ht & _).
    rewrite (auto_iteration_ok agent_stream fuel interval h H0).
    cbn [fst snd].
    destruct (IH (h ++ [thought])%list) as (Hr & Hs & Hm).
    { intros i Hi. rewrite <- app_assoc. cbn [app]. apply (Hok (S i)). lia. }
    split; [exact Hr|]. split.
    + rewrite !sent_app, sent_turn, Hs. reflexivity.
    + rewrite !timeouts_app, Ht, Hm. reflexivity.
Qed.

(** A failing turn sets no timer: the timers set are those of the turns
    completed before it. *)
Lemma auto_loop_fatal_timers (interval : nat) (e : exn) (k : nat) :
  forall (h : list string) (fuel : nat),
    (forall i, i < k ->
       snd (turn agent_stream (h ++ repeat thought i) thought) = Normal tt) ->
    snd (turn agent_stream (h ++ repeat thought k) thought) = Throw e ->
    k < fuel ->
    timeouts (fst (auto_loop agent_stream fuel interval h)) =
      repeat (interval * 1000) k.
Proof.
  induction k as [|k IH]; intros h fuel Hok Hth Hfuel;
    (destruct fuel as [|fuel]; [lia|]).
  - cbn [repeat] in Hth. rewrite app_nil_r in Hth.
    rewrite (auto_iteration_throws agent_stream fuel interval h e Hth).
    cbn [fst]. rewrite timeouts_app.
    destruct (turn_quiet agent_stream h thought) as (_ & -> & _).
    now destruct (quiet_catch_and_exit e) as (_ & -> & _).
  - assert (H0 : snd (turn agent_stream h thought) = Normal tt).
    { specialize (Hok 0 ltac:(lia)). cbn [repeat] in Hok.
      now rewrite app_nil_r in Hok. }
    rewrite (auto_iteration_ok agent_stream fuel interval h H0). cbn [fst].
    destruct (turn_quiet agent_stream h thought) as (_ & Ht & _).
    rewrite !timeouts_app, Ht.
    rewrite (IH (h ++ [thought])%list fuel).
    + reflexivity.
    + intros i Hi. rewrite <- app_assoc. cbn [app]. apply (Hok (S i)). lia.
    + rewrite <- app_assoc. exact Hth.
    + lia.
Qed.

End AutoOutcomes.

(** X14.  [runAutonomousMode] never returns to its caller and never
    throws: after any number of iterations it is still looping or has
    exited with status 1.  It asks for no input and closes no reader. *)
Theorem autonomous_mode_never_returns
  (agent_stream : list string -> string -> exn + stream)
  (fuel interval : nat) :
  let run := runAutonomousMode agent_stream fuel interval in
  (snd run = StillRunning \/ snd run = Exit 1) /\
  asked (fst run) = 0 /\ closed (fst run) = 0.
Proof.
  cbv zeta. unfold runAutonomousMode.
  destruct (auto_loop_outcomes agent_stream interval fuel []) as (Ha & Hc & Hr).
  destruct (auto_loop agent_stream fuel interval []) as [t r].
  cbn in *. auto.
Qed.

(** X15.  The autonomous loop is paced by one timer per completed turn,
    of [interval * 1000] milliseconds: while the turns complete, [n]
    iterations send the fixed prompt [n] times and set [n] timers; a turn
    that fails sets none, so [k] timers were set when turn [k] fails. *)
Theorem autonomous_mode_pacing
  (agent_stream : list string -> string -> exn + stream)
  (fuel interval : nat) :
  ((forall i, i < fuel ->
      snd (turn agent_stream (repeat thought i) thought) = Normal tt) ->
   snd (runAutonomousMode agent_stream fuel interval) = StillRunning /\
   sent (fst (runAutonomousMode agent_stream fuel interval)) =
     repeat thought fuel /\
   timeouts (fst (runAutonomousMode agent_stream fuel interval)) =
     repeat (interval * 1000) fuel) /\
  (forall k e,
      (forall i, i < k ->
         snd (turn agent_stream (repeat thought i) thought) = Normal tt) ->
      snd (turn agent_stream (repeat thought k) thought) = Throw e ->
      k < fuel ->
      timeouts (fst (runAutonomousMode agent_stream fuel interval)) =
        repeat (interval * 1000) k).
Proof.
  split.
  - intro Hok.
    destruct (auto_loop_paced agent_stream interval fuel [] Hok)
      as (Hr & Hs & Ht).
    unfold runAutonomousMode.
    destruct (auto_loop agent_stream fuel interval []) as [t r].
    cbn in *. auto.
  - intros k e Hok Hth Hfuel.
    pose proof (auto_loop_fatal_timers agent_stream interval e k [] fuel
                  Hok Hth Hfuel) as Ht.
    unfold runAutonomousMode.
    destruct (auto_loop agent_stream fuel interval []) as [t r].
    cbn in *. exact Ht.
Qed.

Lemma autonomous_mode_pacing_witness :
  timeouts (fst (runAutonomousMode sample_agent 3 default_interval)) =
    repeat (default_interval * 1000) 3 /\
  timeouts (fst (runAutonomousMode flaky_agent 3 default_interval)) =
    repeat (default_interval * 1000) 1.
Proof.
  destruct (autonomous_mode_pacing sample_agent 3 default_interval) as [H _].
  destruct (autonomous_mode_pacing flaky_agent 3 default_interval) as [_ H'].
  split.
  - destruct H as (_ & _ & Ht); [intros i Hi; reflexivity|exact Ht].
  - apply (H' 1 (Error "socket hang up")).
    + intros i Hi. destruct i; [reflexivity|lia].
    + reflexivity.
    + lia.
Defined.

(** * Properties of the start-up *)

(** X16.  [validateEnvironment] ends the process with status 1 exactly
    when [CDP_API_KEY_NAME] or [CDP_API_KEY_PRIVATE_KEY] is unset or
    empty; it then prints the heading and one [NAME=your_name_here] line
    per missing variable, in that order, and no [NETWORK_ID] warning.
    With both set it returns, warning exactly when [NETWORK_ID] is unset
    or empty. *)
Theorem validateEnvironment_outcomes (env : Environment) :
  validateEnvironment env =
  if truthy (env "CDP_API_KEY_NAME") && truthy (env "CDP_API_KEY_PRIVATE_KEY")
  then
    (if truthy (env "NETWORK_ID") then []
     else [ConsoleError
             [AStr "Warning: NETWORK_ID not set, defaulting to base-sepolia testnet"]],
     Normal tt)
  else
    ((ConsoleError [AStr "Error: Required environment variables are not set"] ::
      (if truthy (env "CDP_API_KEY_NAME") then []
       else [ConsoleError [AStr "CDP_API_KEY_NAME=your_cdp_api_key_name_here"]]) ++
      (if truthy (env "CDP_API_KEY_PRIVATE_KEY") then []
       else [ConsoleError
               [AStr "CDP_API_KEY_PRIVATE_KEY=your_cdp_api_key_private_key_here"]]))%list,
     Exit 1).
Proof.
  unfold validateEnvironment, missingVars, requiredVars. cbn [filter].
  destruct (truthy (env "CDP_API_KEY_NAME"));
    destruct (truthy (env "CDP_API_KEY_PRIVATE_KEY"));
    destruct (truthy (env "NETWORK_ID")); reflexivity.
Qed.

Lemma chooseMode_invalid (l : string) (rest : list string) :
  ~ In (normalize l) choices ->
  chooseMode (l :: rest) =
  ((menu ++ [ConsoleLog invalid_choice]) ++ fst (chooseMode rest),
   snd (chooseMode rest))%list.
Proof.
  intro H. cbn [chooseMode].
  assert (E1 : (normalize l =? "1") = false)
    by (apply String.eqb_neq; intro E; apply H; rewrite E; cbn; auto).
  assert (E2 : (normalize l =? "chat") = false)
    by (apply String.eqb_neq; intro E; apply H; rewrite E; cbn; auto).
  assert (E3 : (normalize l =? "2") = false)
    by (apply String.eqb_neq; intro E; apply H; rewrite E; cbn; auto).
  assert (E4 : (normalize l =? "auto") = false)
    by (apply String.eqb_neq; intro E; apply H; rewrite E; cbn; auto).
  rewrite E1, E2, E3, E4. cbn [orb].
  destruct (chooseMode rest) as [t r]. reflexivity.
Qed.

Lemma chooseMode_valid (l : string) (rest : list string) :
  In (normalize l) choices ->
  chooseMode (l :: rest) =
  ((menu ++ [RlClose])%list, Normal (mode_of (normalize l), rest)).
Proof.
  intro H. cbn [chooseMode]. unfold mode_of. cbn in H.
  destruct H as [<-|[<-|[<-|[<-|[]]]]]; reflexivity.
Qed.

Lemma rejections_app (t1 t2 : trace) :
  rejections (t1 ++ t2)%list = rejections t1 + rejections t2.
Proof. unfold rejections. now rewrite printed_app, count_occ_app. Qed.

(** X17.  [chooseMode] skips the answers it does not accept: after any
    number of them, the first accepted answer (["1"] or ["chat"] for the
    chat mode, ["2"] or ["auto"] for the autonomous mode, after lower
    casing and trimming) selects the mode.  It has then asked once per
    line read, reported one invalid choice per skipped line, closed its
    reader once and left the later lines unread. *)
Theorem chooseMode_skips_invalid_answers (pre : list string) (l : string)
  (rest : list string) :
  Forall (fun x => ~ In (normalize x) choices) pre ->
  In (normalize l) choices ->
  snd (chooseMode (pre ++ l :: rest)) = Normal (mode_of (normalize l), rest) /\
  asked (fst (chooseMode (pre ++ l :: rest))) = S (length pre) /\
  rejections (fst (chooseMode (pre ++ l :: rest))) = length pre /\
  closed (fst (chooseMode (pre ++ l :: rest))) = 1.
Proof.
  intros Hpre Hl. induction Hpre as [|x pre Hx Hpre IH].
  - cbn [app]. rewrite (chooseMode_valid l rest Hl). repeat split.
  - cbn [app]. rewrite (chooseMode_invalid x (pre ++ l :: rest) Hx).
    destruct IH as (Hr & Ha & Hj & Hc). cbn [fst snd].
    rewrite asked_app, rejections_app, closed_app, Ha, Hj, Hc.
    split; [exact Hr|]. split; [reflexivity|]. split; reflexivity.
Qed.

Lemma chooseMode_skips_invalid_answers_witness :
  snd (chooseMode ["help"; ""; "  Auto "; "exit"]) = Normal (Auto, ["exit"]) /\
  rejections (fst (chooseMode ["help"; ""; "  Auto "; "exit"])) = 2.
Proof.
  destruct (chooseMode_skips_invalid_answers ["help"; ""] "  Auto " ["exit"])
    as (Hr & _ & Hj & _).
  - repeat constructor; cbn; intuition discriminate.
  - cbn. auto.
  - split; [exact Hr|exact Hj].
Defined.

(** X18.  [chooseMode] never fails: it returns a mode, having closed its
    reader once, or it is still asking, every line read so far having
    been reported as an invalid choice and the reader being open.  It
    neither throws nor exits. *)
Theorem chooseMode_never_fails (inputs : list string) :
  (exists m rest,
      snd (chooseMode inputs) = Normal (m, rest) /\
      closed (fst (chooseMode inputs)) = 1) \/
  (snd (chooseMode inputs) = AwaitingInput /\
   closed (fst (chooseMode inputs)) = 0 /\
   rejections (fst (chooseMode inputs)) = length inputs /\
   asked (fst (chooseMode inputs)) = S (length inputs) /\
   Forall (fun x => ~ In (normalize x) choices) inputs).
Proof.
  induction inputs as [|l rest IH].
  - right. cbn. repeat split. constructor.
  - destruct (in_dec string_dec (normalize l) choices) as [Hin|Hout].
    + left. rewrite (chooseMode_valid l rest Hin).
      do 2 eexists. split; reflexivity.
    + rewrite (chooseMode_invalid l rest Hout). cbn [fst snd].
      destruct IH as [(m & r & Hr & Hc)|(Hr & Hc & Hj & Ha & Hall)].
      * left. exists m, r. split; [exact Hr|].
        rewrite closed_app, Hc. reflexivity.
      * right. rewrite closed_app, rejections_app, asked_app, Hc, Hj, Ha.
        repeat split; try exact Hr; try reflexivity.
        now constructor.
Qed.

(** A printable character starts no white space. *)
Lemma plain_not_space (a : ascii) :
  plain a = true ->
  is_ascii_space a = false /\
  (forall b, is_space2 a b = false) /\
  (forall b c, is_space3 a b c = false).
Proof.
  destruct a as [[] [] [] [] [] [] [] []]; intro H;
    try discriminate H; repeat split; intros; reflexivity.
Qed.

Lemma plain_lower (a : ascii) : plain (lower_char a) = plain a.
Proof. by_ascii_cases a. Qed.

Lemma space_lower (a : ascii) : is_ascii_space a = true -> lower_char a = a.
Proof.
  destruct a as [[] [] [] [] [] [] [] []]; intro H;
    try discriminate H; reflexivity.
Qed.

Lemma trimStart_plain (a : ascii) (s : string) :
  plain a = true -> trimStart (String a s) = String a s.
Proof.
  intro H. destruct (plain_not_space a H) as (H1 & H2 & H3).
  cbn [trimStart]. rewrite H1.
  destruct s as [|b [|c s]]; [reflexivity| |].
  - now rewrite H2.
  - now rewrite H2, H3.
Qed.

Lemma trimStart_spaces (p s : string) :
  all_ascii_space p = true -> trimStart (p ++ s) = trimStart s.
Proof.
  induction p as [|a p IH]; intro H; [reflexivity|].
  cbn [all_ascii_space] in H. apply andb_prop in H. destruct H as [Ha Hp].
  cbn [append trimStart]. rewrite Ha. now apply IH.
Qed.

Lemma trimStart_all_space (p : string) :
  all_ascii_space p = true -> trimStart p = "".
Proof.
  induction p as [|a p IH]; intro H; [reflexivity|].
  cbn [all_ascii_space] in H. apply andb_prop in H. destruct H as [Ha Hp].
  cbn [trimStart]. rewrite Ha. now apply IH.
Qed.

Lemma trimEnd_all_space (p : string) :
  all_ascii_space p = true -> trimEnd p = "".
Proof.
  intro H. destruct p as [|a p]; [reflexivity|].
  cbn [trimEnd]. now rewrite (trimStart_all_space (String a p) H).
Qed.

Lemma trimEnd_plain_spaces (w q : string) :
  all_plain w = true -> all_ascii_space q = true -> trimEnd (w ++ q) = w.
Proof.
  intros Hw Hq. induction w as [|a w IH].
  - now apply trimEnd_all_space.
  - cbn [all_plain] in Hw. apply andb_prop in Hw. destruct Hw as [Ha Hw].
    cbn [append trimEnd]. rewrite (trimStart_plain a (w ++ q) Ha).
    cbn. now rewrite (IH Hw).
Qed.

Lemma toLowerCase_app (a b : string) :
  toLowerCase (a ++ b) = toLowerCase a ++ toLowerCase b.
Proof. induction a as [|c a IH]; cbn; [reflexivity|now rewrite IH]. Qed.

Lemma toLowerCase_spaces (p : string) :
  all_ascii_space p = true -> toLowerCase p = p.
Proof.
  induction p as [|a p IH]; intro H; [reflexivity|].
  cbn [all_ascii_space] in H. apply andb_prop in H. destruct H as [Ha Hp].
  cbn. now rewrite (space_lower a Ha), (IH Hp).
Qed.

Lemma all_plain_lower (w : string) : all_plain (toLowerCase w) = all_plain w.
Proof.
  induction w as [|a w IH]; [reflexivity|].
  cbn [toLowerCase all_plain]. fold (plain (lower_char a)). fold (plain a).
  now rewrite plain_lower, IH.
Qed.

(** Lower casing and trimming undo letter case and a padding of ASCII
    white space around a word of printable characters. *)
Lemma normalize_padded (p w q : string) :
  all_ascii_space p = true -> all_ascii_space q = true ->
  all_plain w = true ->
  normalize (p ++ w ++ q) = toLowerCase w.
Proof.
  intros Hp Hq Hw. unfold normalize, trim.
  rewrite !toLowerCase_app, (toLowerCase_spaces p Hp), (toLowerCase_spaces q Hq).
  rewrite (trimStart_spaces p _ Hp).
  rewrite <- all_plain_lower in Hw.
  destruct (toLowerCase w) as [|a lw] eqn:E.
  - cbn [append]. rewrite (trimStart_all_space q Hq). reflexivity.
  - assert (Ha : plain a = true).
    { cbn [all_plain] in Hw. apply andb_prop in Hw. apply Hw. }
    cbn [append]. rewrite (trimStart_plain a (lw ++ q) Ha).
    apply (trimEnd_plain_spaces (String a lw) q Hw Hq).
Qed.

(** X19.  The mode prompt ignores letter case and surrounding white
    space: a line made of ASCII white space, a word whose lower-case form
    is ["1"], ["chat"], ["2"] or ["auto"], and more ASCII white space
    selects the mode that word names, at the first prompt. *)
Theorem mode_choice_ignores_case_and_padding (p w q : string)
  (rest : list string) :
  all_ascii_space p = true -> all_ascii_space q = true ->
  In (toLowerCase w) choices ->
  chooseMode ((p ++ w ++ q) :: rest) =
  ((menu ++ [RlClose])%list, Normal (mode_of (toLowerCase w), rest)).
Proof.
  intros Hp Hq Hw.
  assert (Hplain : all_plain w = true).
  { rewrite <- all_plain_lower. cbn in Hw.
    destruct Hw as [<-|[<-|[<-|[<-|[]]]]]; reflexivity. }
  pose proof (normalize_padded p w q Hp Hq Hplain) as Hn.
  rewrite (chooseMode_valid (p ++ w ++ q) rest) by now rewrite Hn.
  now rewrite Hn.
Qed.

Lemma mode_choice_ignores_case_and_padding_witness :
  snd (chooseMode ["  ChAt  "; "hello"]) = Normal (Chat, ["hello"]).
Proof.
  pose proof (mode_choice_ignores_case_and_padding "  " "ChAt" "  " ["hello"]
                eq_refl eq_refl) as H.
  cbn [append] in H. rewrite H; [reflexivity|].
  cbn. auto.
Defined.

(** X20.  A wallet file that cannot be used does not stop the start-up:
    an empty file is the same as no file, and a file whose read throws
    is the same as no file except that the read error is logged first.
    In both cases the agent kit is configured without wallet data. *)
Theorem unusable_wallet_file_is_like_none (w : World) (env : ProcessEnv) :
  (existsSync w = true -> readFileSync w = inr "" ->
   initializeAgent w env = initializeAgent (without_wallet_file w) env) /\
  (forall e,
      new_ChatOpenAI w = None ->
      existsSync w = true -> readFileSync w = inl e ->
      initializeAgent w env =
      (ConsoleError [AStr "Error reading wallet data:"; AExn e]
         :: fst (initializeAgent (without_wallet_file w) env),
       snd (initializeAgent (without_wallet_file w) env))).
Proof.
  split.
  - intros Hex Hread.
    unfold initializeAgent, read_wallet_data, without_wallet_file.
    cbn [new_ChatOpenAI existsSync readFileSync configureWithWallet
         createReactAgent writeFileSync].
    rewrite Hex, Hread. reflexivity.
  - intros e Hllm Hex Hread.
    unfold initializeAgent, read_wallet_data, without_wallet_file.
    cbn [new_ChatOpenAI existsSync readFileSync configureWithWallet
         createReactAgent writeFileSync].
    rewrite Hllm, Hex, Hread. cbn.
    destruct (configureWithWallet w _) as [e1|kit]; [reflexivity|].
    destruct (createReactAgent w) as [e2|a]; [reflexivity|]. cbn.
    destruct (exportWallet kit) as [e3|data]; [reflexivity|]. cbn.
    destruct (writeFileSync w data) as [e4|]; reflexivity.
Qed.

Lemma unusable_wallet_file_is_like_none_witness :
  initializeAgent sample_world sample_env =
  ([ConsoleError [AStr "Error reading wallet data:";
                  AExn (Error "EACCES: permission denied")]],
   snd (initializeAgent (without_wallet_file sample_world) sample_env)).
Proof.
  destruct (unusable_wallet_file_is_like_none sample_world sample_env)
    as [_ H].
  exact (H (Error "EACCES: permission denied") eq_refl eq_refl eq_refl).
Defined.


Lemma try_catch_exit_no_throw {A} (body : M A) (handler : exn -> M A) :
  (forall e, exists t c, handler e = (t, Exit c)) ->
  forall e, snd (try_catch body handler) <> Throw e.
Proof.
  intros Hh e. destruct body as [t [a|e'|c| |]]; cbn; try discriminate.
  destruct (Hh e') as (t' & c & ->). cbn. discriminate.
Qed.

Lemma try_catch_pass {A} (body : M A) (handler : exn -> M A) :
  (forall e, snd body <> Throw e) -> try_catch body handler = body.
Proof.
  intro H. destruct body as [t [a|e| | | ]]; try reflexivity.
  exfalso. now apply (H e).
Qed.

Lemma catch_and_exit_exits (e : exn) :
  exists t c, catch_and_exit e = (t, Exit c).
Proof. destruct e; eexists _, _; reflexivity. Qed.

Lemma main_no_throw (w : World) (env : ProcessEnv) (inputs : list string)
  (fuel : nat) (e : exn) :
  snd (main w env inputs fuel) <> Throw e.
Proof.
  unfold main. apply try_catch_exit_no_throw. apply catch_and_exit_exits.
Qed.

Lemma runChatMode_no_throw
  (agent_stream : list string -> string -> exn + stream)
  (inputs : list string) (e : exn) :
  snd (runChatMode agent_stream inputs) <> Throw e.
Proof.
  destruct (runChatMode_outcome agent_stream inputs) as [_ ->].
  destruct (snd (chat_loop agent_stream [] inputs)); discriminate.
Qed.

Lemma runAutonomousMode_no_throw
  (agent_stream : list string -> string -> exn + stream)
  (fuel interval : nat) (e : exn) :
  snd (runAutonomousMode agent_stream fuel interval) <> Throw e.
Proof.
  unfold runAutonomousMode.
  destruct (auto_loop_outcomes agent_stream interval fuel []) as (_ & _ & H).
  destruct (auto_loop agent_stream fuel interval []) as [t r].
  cbn in *. destruct H as [-> | ->]; discriminate.
Qed.

(** Start-up asks for no line and sends no message. *)
Lemma initializeAgent_quiet (w : World) (env : ProcessEnv) :
  asked (fst (initializeAgent w env)) = 0 /\
  sent (fst (initializeAgent w env)) = [].
Proof.
  unfold initializeAgent, read_wallet_data.
  destruct (new_ChatOpenAI w); cbn; [auto|].
  destruct (existsSync w); [destruct (readFileSync w)|]; cbn;
    (destruct (configureWithWallet w _) as [|kit]; cbn; [auto|];
     destruct (createReactAgent w); cbn; [auto|];
     destruct (exportWallet kit); cbn; [auto|];
     destruct (writeFileSync w _); cbn; auto).
Qed.

(** X22.  [main] never throws to the entry point: every error inside it
    ends in [process.exit(1)].  When [initializeAgent] fails, [main]
    exits with status 1 before any prompt: no line is asked for and no
    message is sent to an agent. *)
Theorem main_contains_every_error (w : World) (env : ProcessEnv)
  (inputs : list string) (fuel : nat) :
  (forall e, snd (main w env inputs fuel) <> Throw e) /\
  (forall e,
      snd (initializeAgent w env) = Throw e ->
      snd (main w env inputs fuel) = Exit 1 /\
      asked (fst (main w env inputs fuel)) = 0 /\
      sent (fst (main w env inputs fuel)) = []).
Proof.
  split; [intro e; apply main_no_throw|].
  intros e He. unfold main.
  destruct (initializeAgent_quiet w env) as [Ha Hs].
  destruct (initializeAgent w env) as [t0 r0]. cbn [fst snd] in *. subst r0.
  cbn. destruct e; cbn; rewrite ?asked_app, ?sent_app, ?app_nil_r, Ha, Hs; auto.
Qed.

Lemma main_contains_every_error_witness :
  snd (main offline_world sample_env ["chat"; "hello"] 1) = Exit 1 /\
  asked (fst (main offline_world sample_env ["chat"; "hello"] 1)) = 0.
Proof.
  destruct (main_contains_every_error offline_world sample_env
              ["chat"; "hello"] 1) as [_ H].
  destruct (H (Error "network unreachable") eq_refl) as (H1 & H2 & _).
  split; [exact H1|exact H2].
Defined.

Lemma chooseMode_selects (pre : list string) (l : string) (rest : list string) :
  Forall (fun x => ~ In (normalize x) choices) pre ->
  In (normalize l) choices ->
  snd (chooseMode (pre ++ l :: rest)) = Normal (mode_of (normalize l), rest).
Proof.
  intros Hpre Hl. induction Hpre as [|x pre Hx Hpre IH]; cbn [app].
  - now rewrite (chooseMode_valid l rest Hl).
  - now rewrite (chooseMode_invalid x (pre ++ l :: rest) Hx).
Qed.

(** X23.  After a successful start-up, [main] is the mode prompt followed
    by the selected driver: the chat driver reads the lines the prompt
    left unread, the autonomous driver runs with the interval of 10, both
    on the agent [initializeAgent] returned; the outcome of [main] is the
    outcome of that driver. *)
Theorem main_runs_the_selected_mode (w : World) (env : ProcessEnv)
  (pre : list string) (l : string) (rest : list string) (fuel : nat)
  (t0 : trace) (init : Initialized) :
  initializeAgent w env = (t0, Normal init) ->
  Forall (fun x => ~ In (normalize x) choices) pre ->
  In (normalize l) choices ->
  main w env (pre ++ l :: rest) fuel =
  (let run :=
     match mode_of (normalize l) with
     | Chat => runChatMode (agent_executor init) rest
     | Auto => runAutonomousMode (agent_executor init) fuel default_interval
     end in
   ((t0 ++ fst (chooseMode (pre ++ l :: rest)) ++ fst run)%list, snd run)).
Proof.
  intros Hinit Hpre Hl. unfold main. rewrite Hinit.
  pose proof (chooseMode_selects pre l rest Hpre Hl) as Hsel.
  destruct (chooseMode (pre ++ l :: rest)) as [t1 r1]. cbn [snd] in Hsel.
  subst r1. cbv zeta. cbn [bind fst snd].
  destruct (mode_of (normalize l)).
  - pose proof (runChatMode_no_throw (agent_executor init) rest) as Hno.
    destruct (runChatMode (agent_executor init) rest) as [t2 r2].
    cbn [fst snd] in *. apply try_catch_pass. exact Hno.
  - pose proof (runAutonomousMode_no_throw (agent_executor init) fuel
                  default_interval) as Hno.
    destruct (runAutonomousMode (agent_executor init) fuel default_interval)
      as [t2 r2].
    cbn [fst snd] in *. apply try_catch_pass. exact Hno.
Qed.

Lemma main_runs_the_selected_mode_witness :
  snd (main sample_world sample_env ["what"; "Chat"; "hello"; "EXIT"] 1) =
    Normal tt /\
  sent (fst (main sample_world sample_env ["what"; "Chat"; "hello"; "EXIT"] 1)) =
    ["hello"].
Proof.
  pose proof (main_runs_the_selected_mode sample_world sample_env ["what"]
                "Chat" ["hello"; "EXIT"] 1 _ _ eq_refl) as H.
  cbn [app] in H. rewrite H.
  - split; reflexivity.
  - repeat constructor. cbn. intuition discriminate.
  - cbn. auto.
Defined.

Lemma validateEnvironment_passes (env : Environment) :
  truthy (env "CDP_API_KEY_NAME") && truthy (env "CDP_API_KEY_PRIVATE_KEY") = true ->
  snd (validateEnvironment env) = Normal tt.
Proof.
  unfold validateEnvironment, missingVars, requiredVars. cbn [filter].
  intro H. apply andb_prop in H. destruct H as [-> ->]. cbn.
  destruct (truthy (env "NETWORK_ID")); reflexivity.
Qed.

Lemma validateEnvironment_stops (env : Environment) :
  truthy (env "CDP_API_KEY_NAME") && truthy (env "CDP_API_KEY_PRIVATE_KEY") = false ->
  snd (validateEnvironment env) = Exit 1.
Proof.
  unfold validateEnvironment, missingVars, requiredVars. cbn [filter].
  destruct (truthy (env "CDP_API_KEY_NAME"));
    destruct (truthy (env "CDP_API_KEY_PRIVATE_KEY")); cbn;
    intro H; try discriminate H; reflexivity.
Qed.

(** X24.  Run as a script, the module ends where the environment check
    ends when a required variable is missing: status 1, and neither the
    start-up nor a prompt runs.  Otherwise it prints the start line and
    its outcome is that of [main]; the entry point's own handler for a
    rejected [main] never runs, so no "Fatal error:" line is written. *)
Theorem entry_point_outcomes (w : World) (env : Environment)
  (inputs : list string) (fuel : nat) :
  (truthy (env "CDP_API_KEY_NAME") && truthy (env "CDP_API_KEY_PRIVATE_KEY")
     = false ->
   program w env inputs fuel = validateEnvironment env /\
   snd (program w env inputs fuel) = Exit 1) /\
  (truthy (env "CDP_API_KEY_NAME") && truthy (env "CDP_API_KEY_PRIVATE_KEY")
     = true ->
   program w env inputs fuel =
   ((fst (validateEnvironment env) ++
     ConsoleLog "Starting Agent..." ::
     fst (main w (process_env env) inputs fuel))%list,
    snd (main w (process_env env) inputs fuel))).
Proof.
  split; intro H.
  - pose proof (validateEnvironment_stops env H) as Hs.
    unfold program.
    destruct (validateEnvironment env) as [t r]. cbn [snd] in Hs. subst r.
    split; reflexivity.
  - pose proof (validateEnvironment_passes env H) as Hs.
    unfold program.
    destruct (validateEnvironment env) as [t r]. cbn [snd] in Hs. subst r.
    rewrite (try_catch_pass (main w (process_env env) inputs fuel))
      by (intro e; apply main_no_throw).
    destruct (main w (process_env env) inputs fuel) as [t' r'].
    reflexivity.
Qed.

Lemma entry_point_outcomes_witness :
  program sample_world keyless_environment ["chat"; "exit"] 1 =
  ([ConsoleError [AStr "Error: Required environment variables are not set"];
    ConsoleError
      [AStr "CDP_API_KEY_PRIVATE_KEY=your_cdp_api_key_private_key_here"]],
   Exit 1) /\
  snd (program sample_world full_environment ["chat"; "exit"] 1) = Normal tt.
Proof.
  destruct (entry_point_outcomes sample_world keyless_environment
              ["chat"; "exit"] 1) as [H _].
  destruct (entry_point_outcomes sample_world full_environment
              ["chat"; "exit"] 1) as [_ H'].
  split.
  - destruct (H eq_refl) as [-> _]. reflexivity.
  - rewrite (H' eq_refl). reflexivity.
Defined.
